(** * GIREI chat client: the streaming response pipeline

    A shallow embedding of the renderer script of the GIREI desktop chat
    client (the [formatMessage], [addMessage] and [sendMessage] functions of
    the renderer, and the loading of the saved history at start-up) and the
    properties of its streaming pipeline: reasoning suppression, math
    masking and restoration, the scroll policy and the turn life cycle.

    JavaScript strings are sequences of UTF-16 code units; they are modelled
    as lists of code units ([N]).  Regular-expression replacement is modelled
    by one left-to-right scanning engine, instantiated with a matcher per
    regular expression of the source. *)

From Stdlib Require Import List NArith ZArith Bool Arith Lia String Ascii.
From Stdlib Require Import DecimalString.
From Stdlib Require DecimalFacts DecimalNat.
Import ListNotations.

Set Implicit Arguments.

(* ===================================================================== *)
(** ** JavaScript strings *)
(* ===================================================================== *)

Module Js.

(** A UTF-16 code unit. *)
Definition char := N.
Definition jsstring := list char.

(** A literal of the source, written as a Rocq string. *)
Definition str (s : string) : jsstring :=
  map N_of_ascii (list_ascii_of_string s).

Definition LF : char := 10%N.

(** [String.prototype.trim] strips WhiteSpace and LineTerminator code units:
    TAB, LF, VT, FF, CR, SP, NBSP, U+1680, U+2000..U+200A, U+2028, U+2029,
    U+202F, U+205F, U+3000 and U+FEFF. *)
Definition isSpace (c : char) : bool :=
  ((9 <=? c) && (c <=? 13) || (c =? 32) || (c =? 160) || (c =? 5760)
   || ((8192 <=? c) && (c <=? 8202)) || (c =? 8232) || (c =? 8233)
   || (c =? 8239) || (c =? 8287) || (c =? 12288) || (c =? 65279))%N.

Fixpoint trimStart (s : jsstring) : jsstring :=
  match s with
  | [] => []
  | c :: s' => if isSpace c then trimStart s' else s
  end.

Definition trimEnd (s : jsstring) : jsstring := rev (trimStart (rev s)).

Definition trim (s : jsstring) : jsstring := trimEnd (trimStart s).

(** Canonicalisation of a code unit under the [i] flag (without [u]): the
    upper-case mapping.  A code unit outside ASCII never canonicalises to an
    ASCII one, so against the ASCII patterns of the source only the ASCII
    letters fold. *)
Definition canonicalize (c : char) : char :=
  if ((97 <=? c) && (c <=? 122))%N then (c - 32)%N else c.

Definition isDigit (c : char) : bool := ((48 <=? c) && (c <=? 57))%N.

(** Decimal rendering of an array length or index. *)
Definition showNat (n : nat) : jsstring :=
  str (NilEmpty.string_of_uint (Nat.to_uint n)).

(** Maximal prefix whose code units satisfy [p], and the rest. *)
Fixpoint span (p : char -> bool) (s : jsstring) : jsstring * jsstring :=
  match s with
  | [] => ([], [])
  | c :: s' =>
      if p c then let '(a, b) := span p s' in (c :: a, b) else ([], s)
  end.

End Js.
Import Js.

(* ===================================================================== *)
(** ** Substring search under a normaliser *)
(* ===================================================================== *)

Section Search.

(** Code units of the text are normalised before they are compared with a
    pattern: [canonicalize] for the regular expressions with the [i] flag,
    the identity for the others.  A pattern is given in normal form. *)
Variable norm : char -> char.

(** The pattern at the head of the text: the text after it. *)
Fixpoint stripPrefix (pat s : jsstring) : option jsstring :=
  match pat with
  | [] => Some s
  | p :: pat' =>
      match s with
      | [] => None
      | c :: s' => if (norm c =? p)%N then stripPrefix pat' s' else None
      end
  end.

(** Leftmost occurrence of the pattern: the text before and after it. *)
Fixpoint findSub (pat s : jsstring) : option (jsstring * jsstring) :=
  match stripPrefix pat s with
  | Some rest => Some ([], rest)
  | None =>
      match s with
      | [] => None
      | c :: s' =>
          match findSub pat s' with
          | Some (a, b) => Some (c :: a, b)
          | None => None
          end
      end
  end.

Definition hasSub (pat s : jsstring) : bool :=
  match findSub pat s with Some _ => true | None => false end.

(** [open [\s\S]+? close] at the head of the text: the captured content
    (at least one code unit, as short as possible) and the length of the
    whole match. *)
Definition lazySpan (open close s : jsstring) : option (jsstring * nat) :=
  match stripPrefix open s with
  | Some (c :: rest) =>
      match findSub close rest with
      | Some (mid, _) =>
          Some (c :: mid,
                List.length open + S (List.length mid) + List.length close)
      | None => None
      end
  | _ => None
  end.

End Search.

(* ===================================================================== *)
(** ** Global regular-expression replacement *)
(* ===================================================================== *)

Section Replace.

Variable A : Type.

(** [matchAt s]: the match of the regular expression at the head of [s],
    as its length (never zero for the expressions of the source) and what
    the replacer function captures from it. *)
Variable matchAt : jsstring -> option (nat * A).

(** The replacement for the match number [idx] (from zero). *)
Variable emit : nat -> A -> jsstring.

(** [s.replace(/re/g, replacer)]: scan from the left; at a position with a
    match emit the replacement and resume after the match, otherwise copy
    one code unit.  [skip] counts the code units of the current match that
    are still to be dropped.  The captures are returned in match order, as
    the replacers of the source push them. *)
Fixpoint replaceFrom (idx skip : nat) (s : jsstring)
  : jsstring * list A :=
  match s with
  | [] => ([], [])
  | c :: s' =>
      match skip with
      | S k => replaceFrom idx k s'
      | O =>
          match matchAt s with
          | Some (len, a) =>
              let '(out, caps) := replaceFrom (S idx) (Nat.pred len) s' in
              (emit idx a ++ out, a :: caps)
          | None =>
              let '(out, caps) := replaceFrom idx 0 s' in
              (c :: out, caps)
          end
      end
  end.

Definition replaceAll (s : jsstring) : jsstring * list A :=
  replaceFrom 0 0 s.

End Replace.

(* ===================================================================== *)
(** ** formatMessage *)
(* ===================================================================== *)

Module Tags.
(** The tag spellings of the four suppression passes, in canonical
    (upper-case) form since they are matched with the [i] flag. *)
Definition rawOpen : jsstring := str "<THINK>".
Definition rawClose : jsstring := str "</THINK>".
Definition escOpen : jsstring := str "&LT;THINK&GT;".
Definition escClose : jsstring := str "&LT;/THINK&GT;".
End Tags.

(** [/open[\s\S]*?close/gi] at the head of the text. *)
Definition matchPair (open close s : jsstring) : option (nat * unit) :=
  match stripPrefix canonicalize open s with
  | Some rest =>
      match findSub canonicalize close rest with
      | Some (mid, _) =>
          Some (List.length open + List.length mid + List.length close, tt)
      | None => None
      end
  | None => None
  end.

(** [/open[\s\S]*/gi] at the head of the text: the match runs to the end. *)
Definition matchOpenTail (open s : jsstring) : option (nat * unit) :=
  match stripPrefix canonicalize open s with
  | Some _ => Some (List.length s, tt)
  | None => None
  end.

Definition erase (_ : nat) (_ : unit) : jsstring := [].

(** [s.replace(/open[\s\S]*?close/gi, '')] *)
Definition removePairs (open close s : jsstring) : jsstring :=
  fst (replaceAll (matchPair open close) erase s).

(** [s.replace(/open[\s\S]*/gi, '')] *)
Definition removeOpenTail (open s : jsstring) : jsstring :=
  fst (replaceAll (matchOpenTail open) erase s).

(** Stage 1 of [formatMessage]: the four removal passes, each followed by
    [trim].  The result is [cleanText]. *)
Definition stripThink (text : jsstring) : jsstring :=
  let cleanText := trim (removePairs Tags.rawOpen Tags.rawClose text) in
  let cleanText := trim (removePairs Tags.escOpen Tags.escClose cleanText) in
  let cleanText := trim (removeOpenTail Tags.rawOpen cleanText) in
  trim (removeOpenTail Tags.escOpen cleanText).

Definition exact (c : char) : char := c.

(** [/(\$\$([\s\S]+?)\$\$|\\\[([\s\S]+?)\\\])/g]: the capture is
    [(a || b || '').trim()]; a group that took part in the match is never
    empty, so this is the trimmed content. *)
Definition matchDisplay (s : jsstring) : option (nat * jsstring) :=
  match lazySpan exact (str "$$") (str "$$") s with
  | Some (a, len) => Some (len, trim a)
  | None =>
      match lazySpan exact (str "\[") (str "\]") s with
      | Some (b, len) => Some (len, trim b)
      | None => None
      end
  end.

Definition notDollarNorLF (c : char) : bool :=
  negb ((c =? 36) || (c =? LF))%N.

(** [/(\$([^\$\n]+?)\$|\\\(([\s\S]+?)\\\))/g]: between single dollars the
    content is one or more code units other than a dollar sign and a line
    feed, so it ends at the first dollar sign or line feed after it. *)
Definition matchInline (s : jsstring) : option (nat * jsstring) :=
  let dollars :=
    match stripPrefix exact (str "$") s with
    | Some rest =>
        match span notDollarNorLF rest with
        | (c :: a, rest') =>
            match stripPrefix exact (str "$") rest' with
            | Some _ => Some (1 + S (List.length a) + 1, trim (c :: a))
            | None => None
            end
        | _ => None
        end
    | None => None
    end in
  match dollars with
  | Some m => Some m
  | None =>
      match lazySpan exact (str "\(") (str "\)") s with
      | Some (b, len) => Some (len, trim b)
      | None => None
      end
  end.

Definition displayToken (i : nat) (_ : jsstring) : jsstring :=
  str "%%%DISPLAY" ++ showNat i ++ str "%%%".

Definition inlineToken (i : nat) (_ : jsstring) : jsstring :=
  str "%%%INLINE" ++ showNat i ++ str "%%%".

(** Stage 2: the masked text and the table of captured TeX sources. *)
Definition maskDisplay (s : jsstring) : jsstring * list jsstring :=
  replaceAll matchDisplay displayToken s.

Definition maskInline (s : jsstring) : jsstring * list jsstring :=
  replaceAll matchInline inlineToken s.

(** [/%%%NAME(\d+)%%%/g] at the head of the text: the digits captured. *)
Definition matchToken (name s : jsstring) : option (nat * jsstring) :=
  match stripPrefix exact (str "%%%" ++ name) s with
  | Some rest =>
      match span isDigit rest with
      | (d :: ds, rest') =>
          match stripPrefix exact (str "%%%") rest' with
          | Some _ =>
              Some (3 + List.length name + S (List.length ds) + 3, d :: ds)
          | None => None
          end
      | _ => None
      end
  | None => None
  end.

Definition digitsValue (ds : jsstring) : nat :=
  fold_left (fun acc d => 10 * acc + N.to_nat (d - 48)) ds 0.

(** [table[i]] inside a template literal, where [i] is the captured digit
    string: a property lookup by name.  Only a canonical numeric string
    (no leading zero) names an element; any other key, and an index past the
    end, read [undefined], which the template literal prints. *)
Definition arrayGet (table : list jsstring) (ds : jsstring) : jsstring :=
  let canonicalKey :=
    match ds with
    | 48%N :: _ :: _ => false
    | _ => true
    end in
  if canonicalKey then
    match nth_error table (digitsValue ds) with
    | Some tex => tex
    | None => str "undefined"
    end
  else str "undefined".

(** Stage 5. *)
Definition restoreDisplay (displayMath : list jsstring) (html : jsstring)
  : jsstring :=
  fst (replaceAll (matchToken (str "DISPLAY"))
         (fun _ ds => str "$$" ++ arrayGet displayMath ds ++ str "$$") html).

Definition restoreInline (inlineMath : list jsstring) (html : jsstring)
  : jsstring :=
  fst (replaceAll (matchToken (str "INLINE"))
         (fun _ ds => str "\(" ++ arrayGet inlineMath ds ++ str "\)") html).

(** [text.replace(/\n/g, '<br>')] *)
Definition newlinesToBr (text : jsstring) : jsstring :=
  flat_map (fun c => if (c =? LF)%N then str "<br>" else [c]) text.

(** What a call into a collaborator, or a function of the script, does. *)
Inductive outcome : Type :=
| Returns (s : jsstring)
| Throws.

(** The collaborators found by [initDeps]: [marked.parse] and
    [DOMPurify.sanitize] when they are available, each a function that may
    throw; whether [window.electronAPI] and [window.MathJax] exist.  The
    highlighter only restyles code blocks inside a bubble and is left
    out. *)
Record Deps : Type := {
  marked : option (jsstring -> outcome);
  DOMPurify : option (jsstring -> outcome);
  electronAPI : bool;
  MathJax : bool
}.

Definition andThen (o : outcome) (k : jsstring -> outcome) : outcome :=
  match o with
  | Returns s => k s
  | Throws => Throws
  end.

(** [try { body } catch (e) { html = fallback }] *)
Definition tryCatch (body : outcome) (fallback : jsstring) : jsstring :=
  match body with
  | Returns s => s
  | Throws => fallback
  end.

(** Stages 3 and 4, inside the [try]. *)
Definition parseAndSanitize (d : Deps) (parse : jsstring -> outcome)
  (content : jsstring) : outcome :=
  andThen (parse content) (fun html =>
    match DOMPurify d with
    | Some sanitize => sanitize html
    | None => Returns html
    end).

Definition formatMessage (d : Deps) (text : jsstring) : outcome :=
  match marked d with
  | None => Returns (newlinesToBr text)
  | Some parse =>
      let cleanText := stripThink text in
      let '(content, displayMath) := maskDisplay cleanText in
      let '(content, inlineMath) := maskInline content in
      let html := tryCatch (parseAndSanitize d parse content) content in
      let html := restoreDisplay displayMath html in
      let html := restoreInline inlineMath html in
      Returns html
  end.

(* ===================================================================== *)
(** ** The page: transcript, view and viewport *)
(* ===================================================================== *)

Inductive Role : Type := user | assistant | system.

(** An entry of [conversationHistory]. *)
Record Turn : Type := { role : Role; content : jsstring }.

(** The [type] argument of [addMessage]: the CSS class of the message. *)
Inductive MsgType : Type := TUser | TAi | TSystem.

(** How a bubble was filled: [textContent] or [innerHTML]. *)
Inductive Body : Type :=
| TextContent (s : jsstring)
| InnerHTML (s : jsstring).

(** A child of the [chatHistory] element. *)
Inductive Node : Type :=
| Message (id : nat) (type : MsgType) (body : Body)
| LoadingDiv (id : nat).

Definition nodeId (n : Node) : nat :=
  match n with
  | Message id _ _ => id
  | LoadingDiv id => id
  end.

(** The geometry of [chatHistory], in pixels. *)
Record Viewport : Type := {
  scrollHeight : Z;
  scrollTop : Z;
  clientHeight : Z
}.

(** What the script does to the world outside the page, in order. *)
Inductive Event : Type :=
| EvPush (t : Turn)                 (* conversationHistory.push *)
| EvSaveHistory (h : list Turn)     (* electronAPI.saveHistory *)
| EvFetch (messages : list Turn)    (* fetch: the request is dispatched *)
| EvRender (html : jsstring)        (* aiBubble.innerHTML = ... *)
| EvTypeset.                        (* MathJax.typesetPromise *)

Record Page : Type := {
  conversationHistory : list Turn;
  view : list Node;
  viewport : Viewport;
  nextId : nat;
  log : list Event
}.

Definition errorText : jsstring :=
  str "Error: Could not connect to Backend. "
    ++ str "Make sure 'start_app.sh' is running.".

(** The children of [chatHistory] without the element [id]. *)
Definition without (id : nat) (v : list Node) : list Node :=
  filter (fun n => negb (Nat.eqb (nodeId n) id)) v.

(** The children of [chatHistory] after [innerHTML] of the bubble [id] is
    set. *)
Definition withHtml (id : nat) (html : jsstring) (v : list Node)
  : list Node :=
  map (fun n =>
         match n with
         | Message i t _ =>
             if Nat.eqb i id then Message i t (InnerHTML html) else n
         | LoadingDiv _ => n
         end) v.

Section Renderer.

Variable d : Deps.

(** The layout engine: the scroll height of [chatHistory] for its
    children. *)
Variable layout : list Node -> Z.

(** A computation of the script on the page; [None] is an exception on
    its way to the enclosing [catch]. *)
Definition M (A : Type) : Type := Page -> Page * option A.

Definition ret {A} (a : A) : M A := fun p => (p, Some a).
Definition throw {A} : M A := fun p => (p, None).
Definition bind {A B} (m : M A) (k : A -> M B) : M B :=
  fun p =>
    match m p with
    | (p', Some a) => k a p'
    | (p', None) => (p', None)
    end.

Notation "x <- m ;; k" := (bind m (fun x => k))
  (at level 61, m at next level, right associativity).
Notation "m ;;; k" := (bind m (fun _ => k))
  (at level 61, right associativity).

Definition modify (f : Page -> Page) : M unit := fun p => (f p, Some tt).
Definition emitEvent (e : Event) : M unit :=
  modify (fun p =>
    {| conversationHistory := conversationHistory p; view := view p;
       viewport := viewport p; nextId := nextId p;
       log := log p ++ [e] |}).

(** A change of the children of [chatHistory]; the scroll height follows
    the layout. *)
Definition setView (v : list Node) : M unit :=
  modify (fun p =>
    {| conversationHistory := conversationHistory p; view := v;
       viewport := {| scrollHeight := layout v;
                      scrollTop := scrollTop (viewport p);
                      clientHeight := clientHeight (viewport p) |};
       nextId := nextId p; log := log p |}).

(** [chatHistory.scrollTop = chatHistory.scrollHeight]: the browser clamps
    the value to the largest scroll offset. *)
Definition scrollToBottom : M unit :=
  modify (fun p =>
    let vp := viewport p in
    {| conversationHistory := conversationHistory p; view := view p;
       viewport := {| scrollHeight := scrollHeight vp;
                      scrollTop := Z.max 0 (scrollHeight vp - clientHeight vp);
                      clientHeight := clientHeight vp |};
       nextId := nextId p; log := log p |}).

(** While the script waits for the network the user may scroll and the
    window may be resized: the geometry seen when it resumes. *)
Definition observe (vp : Viewport) : M unit :=
  modify (fun p =>
    {| conversationHistory := conversationHistory p; view := view p;
       viewport := vp; nextId := nextId p; log := log p |}).

Definition createElement : M nat :=
  fun p =>
    ({| conversationHistory := conversationHistory p; view := view p;
        viewport := viewport p; nextId := S (nextId p); log := log p |},
     Some (nextId p)).

Definition pushTurn (t : Turn) : M unit :=
  modify (fun p =>
    {| conversationHistory := conversationHistory p ++ [t]; view := view p;
       viewport := viewport p; nextId := nextId p;
       log := log p ++ [EvPush t] |}).

Definition saveHistory : M unit :=
  fun p =>
    if electronAPI d
    then emitEvent (EvSaveHistory (conversationHistory p)) p
    else ret tt p.

Definition typeset : M unit :=
  if MathJax d then emitEvent EvTypeset else ret tt.

(** A call of [formatMessage] from the script. *)
Definition callFormat (text : jsstring) : M jsstring :=
  match formatMessage d text with
  | Returns html => ret html
  | Throws => throw
  end.

Definition appendChild (n : Node) : M unit :=
  fun p => setView (view p ++ [n]) p.

Definition attached (id : nat) (p : Page) : bool :=
  existsb (fun n => Nat.eqb (nodeId n) id) (view p).

Definition removeChild (id : nat) : M unit :=
  fun p => setView (without id (view p)) p.

Definition setInnerHTML (id : nat) (html : jsstring) : M unit :=
  fun p => setView (withHtml id html (view p)) p.

(** [addMessage(text, type)]: returns the bubble. *)
Definition addMessage (text : jsstring) (type : MsgType) : M nat :=
  id <- createElement ;;
  body <- match type with
          | TAi | TSystem =>
              html <- callFormat text ;;
              typeset ;;;
              ret (InnerHTML html)
          | TUser => ret (TextContent text)
          end ;;
  appendChild (Message id type body) ;;;
  scrollToBottom ;;;
  ret id.

(** [isAtBottom] *)
Definition isAtBottom (vp : Viewport) : bool :=
  (scrollHeight vp - scrollTop vp - clientHeight vp <? 50)%Z.

(** The local variables of the streaming loop. *)
Record Loop : Type := {
  accumulatedText : jsstring;
  rawAiResponse : jsstring;
  isFirstMsg : bool;
  aiBubble : option nat;
  shouldAutoScroll : bool
}.

Definition loopStart : Loop :=
  {| accumulatedText := []; rawAiResponse := []; isFirstMsg := true;
     aiBubble := None; shouldAutoScroll := true |}.

(** One result of [reader.read()] that carries data: the geometry of the
    view when the read resolves, and the decoded chunk. *)
Record Read : Type := { seen : Viewport; chunk : jsstring }.

(** The body of the loop after a read with [done] false. *)
Definition onChunk (loadingDiv : nat) (r : Read) (L : Loop) : M Loop :=
  observe (seen r) ;;;
  p <- (fun p => (p, Some p)) ;;
  let shouldScroll := isAtBottom (viewport p) in
  let acc := accumulatedText L ++ chunk r in
  let raw := rawAiResponse L ++ chunk r in
  L1 <- (if isFirstMsg L then
           (if attached loadingDiv p then removeChild loadingDiv
            else ret tt) ;;;
           b <- addMessage [] TAi ;;
           ret {| accumulatedText := acc; rawAiResponse := raw;
                  isFirstMsg := false; aiBubble := Some b;
                  shouldAutoScroll := true |}
         else
           ret {| accumulatedText := acc; rawAiResponse := raw;
                  isFirstMsg := false; aiBubble := aiBubble L;
                  shouldAutoScroll := shouldScroll |}) ;;
  match aiBubble L1 with
  | Some b =>
      html <- callFormat (accumulatedText L1) ;;
      setInnerHTML b html ;;;
      emitEvent (EvRender html)
  | None => ret tt
  end ;;;
  (if shouldAutoScroll L1 then scrollToBottom else ret tt) ;;;
  ret L1.

(** The reads that carry data, in order. *)
Fixpoint onChunks (loadingDiv : nat) (reads : list Read) (L : Loop)
  : M Loop :=
  match reads with
  | [] => ret L
  | r :: reads' =>
      L' <- onChunk loadingDiv r L ;;
      onChunks loadingDiv reads' L'
  end.

(** How the stream ends: a read with [done] true (with the geometry seen
    then), or a read that rejects. *)
Inductive Ending : Type :=
| Done (seenAtEnd : Viewport)
| ReadFails.

(** What the network does to one request. *)
Inductive Net : Type :=
| FetchFails                               (* fetch rejects *)
| BadStatus                                (* response.ok is false *)
| Stream (reads : list Read) (e : Ending). (* a body, read to its end *)

(** [while (true) { ... }] *)
Definition streamLoop (loadingDiv : nat) (reads : list Read) (e : Ending)
  : M Loop :=
  L <- onChunks loadingDiv reads loopStart ;;
  match e with
  | Done vp =>
      observe vp ;;;
      p <- (fun p => (p, Some p)) ;;
      ret {| accumulatedText := accumulatedText L;
             rawAiResponse := rawAiResponse L;
             isFirstMsg := isFirstMsg L; aiBubble := aiBubble L;
             shouldAutoScroll := isAtBottom (viewport p) |}
  | ReadFails => throw
  end.

(** The [try] block of [sendMessage]. *)
Definition tryBlock (loadingDiv : nat) (net : Net) : M unit :=
  p <- (fun p => (p, Some p)) ;;
  emitEvent (EvFetch (conversationHistory p)) ;;;
  match net with
  | FetchFails => throw
  | BadStatus => throw
  | Stream reads e =>
      L <- streamLoop loadingDiv reads e ;;
      typeset ;;;
      pushTurn {| role := assistant; content := rawAiResponse L |} ;;;
      saveHistory
  end.

(** The [catch] block of [sendMessage]. *)
Definition catchBlock (loadingDiv : nat) : M unit :=
  p <- (fun p => (p, Some p)) ;;
  (if attached loadingDiv p then removeChild loadingDiv else ret tt) ;;;
  _ <- addMessage errorText TSystem ;;
  ret tt.

Definition tryCatchM (body handler : M unit) : M unit :=
  fun p =>
    match body p with
    | (p', Some tt) => (p', Some tt)
    | (p', None) => handler p'
    end.

(** [sendMessage()], for the value of the input box and the behaviour of
    the network during the call. *)
Definition sendMessage (value : jsstring) (net : Net) : M unit :=
  let text := trim value in
  match text with
  | [] => ret tt
  | _ :: _ =>
      _ <- addMessage text TUser ;;
      pushTurn {| role := user; content := text |} ;;;
      saveHistory ;;;
      loadingDiv <- createElement ;;
      appendChild (LoadingDiv loadingDiv) ;;;
      scrollToBottom ;;;
      tryCatchM (tryBlock loadingDiv net) (catchBlock loadingDiv)
  end.

End Renderer.

Unset Implicit Arguments.

(** The markup of a text: what [formatMessage] returns. *)
Definition formatted (d : Deps) (text : jsstring) : jsstring :=
  match formatMessage d text with
  | Returns html => html
  | Throws => []
  end.

(* ===================================================================== *)
(** ** Vocabulary of the statements about formatMessage *)
(* ===================================================================== *)

(** The two strings differ at a position that both have. *)
Fixpoint disagree (q o : jsstring) : bool :=
  match q, o with
  | p :: q', c :: o' => if (p =? c)%N then disagree q' o' else true
  | _, _ => false
  end.

(** No proper suffix of [pat] can be continued by a text that starts with
    [other]: an occurrence of [pat] cannot begin before such a text and end
    inside it or after it. *)
Definition apart (pat other : jsstring) : bool :=
  forallb (fun k => disagree (skipn k pat) other)
    (seq 1 (List.length pat - 1)).

(** No occurrence of [pat] can begin inside a text that reads [other]. *)
Definition foreign (pat other : jsstring) : bool :=
  forallb (fun j => disagree pat (skipn j other))
    (seq 0 (List.length other)).

(** Code units that start no math delimiter: neither a dollar sign nor a
    backslash. *)
Definition plainChar (c : char) : bool := negb ((c =? 36) || (c =? 92))%N.
Definition plain (s : jsstring) : bool := forallb plainChar s.

Definition noDollar (s : jsstring) : bool :=
  forallb (fun c => negb (c =? 36)%N) s.

Definition noPercent (s : jsstring) : bool :=
  forallb (fun c => negb (c =? 37)%N) s.

(** The delimiter pairs of the two masking expressions. *)
Inductive Delimiter : Type := DoubleDollar | Bracket | SingleDollar | Paren.

Definition opening (k : Delimiter) : jsstring :=
  match k with
  | DoubleDollar => str "$$"
  | Bracket => str "\["
  | SingleDollar => str "$"
  | Paren => str "\("
  end.

Definition closing (k : Delimiter) : jsstring :=
  match k with
  | DoubleDollar => str "$$"
  | Bracket => str "\]"
  | SingleDollar => str "$"
  | Paren => str "\)"
  end.

Definition isDisplay (k : Delimiter) : bool :=
  match k with
  | DoubleDollar | Bracket => true
  | SingleDollar | Paren => false
  end.

(** A condition under which the delimiters [k] enclose the TeX source as
    one span, and no other span starts inside it: between double dollars
    the source holds no dollar sign at all; between brackets it does not
    hold the closing bracket delimiter; between single dollars it holds no
    dollar sign, no line feed and no opening bracket delimiter; between
    parentheses it holds no dollar sign, no opening bracket delimiter and
    not the closing parenthesis delimiter.  The condition is sufficient,
    not necessary. *)
Definition encloses (k : Delimiter) (t : jsstring) : bool :=
  match k with
  | DoubleDollar => noDollar t
  | Bracket => negb (hasSub exact (str "\]") t)
  | SingleDollar =>
      forallb notDollarNorLF t && negb (hasSub exact (str "\[") t)
  | Paren =>
      noDollar t && negb (hasSub exact (str "\[") t)
      && negb (hasSub exact (str "\)") t)
  end.

(** The placeholder of the first span of its kind. *)
Definition placeholder (k : Delimiter) : jsstring :=
  if isDisplay k then displayToken 0 [] else inlineToken 0 [].

(** The delimiters the math typesetter expects. *)
Definition rewrapped (k : Delimiter) (tex : jsstring) : jsstring :=
  if isDisplay k then str "$$" ++ tex ++ str "$$"
  else str "\(" ++ tex ++ str "\)".


(* ===================================================================== *)
(** ** Vocabulary of the statements about a turn *)
(* ===================================================================== *)

Definition typesetEvents (d : Deps) : list Event :=
  if MathJax d then [EvTypeset] else [].

Definition saveEvents (d : Deps) (h : list Turn) : list Event :=
  if electronAPI d then [EvSaveHistory h] else [].

(** The text received over the reads, in order. *)
Definition received (reads : list Read) : jsstring :=
  List.concat (map chunk reads).

(** The renderings of the growing buffer, one per read. *)
Fixpoint renders (d : Deps) (acc : jsstring) (reads : list Read)
  : list Event :=
  match reads with
  | [] => []
  | r :: reads' =>
      EvRender (formatted d (acc ++ chunk r))
        :: renders d (acc ++ chunk r) reads'
  end.

(** The geometry after a change of the children to [v], seen from the
    geometry [vp], scrolled to the bottom or left where it was. *)
Definition relaid (layout : list Node -> Z) (v : list Node) (vp : Viewport)
  (toBottom : bool) : Viewport :=
  {| scrollHeight := layout v;
     scrollTop := if toBottom then Z.max 0 (layout v - clientHeight vp)
                  else scrollTop vp;
     clientHeight := clientHeight vp |}.

Definition isPush (e : Event) : bool :=
  match e with EvPush _ => true | _ => false end.

Definition isRender (e : Event) : bool :=
  match e with EvRender _ => true | _ => false end.

(** Element identities are fresh: every child of [chatHistory] was created
    before the next element will be. *)
Definition wfPage (p : Page) : Prop :=
  Forall (fun n => nodeId n < nextId p) (view p).

(** The children of [chatHistory] once the first chunk has made the
    bubble [n] and the buffer [text] is rendered into it. *)
Definition streamedView (d : Deps) (l n : nat) (text : jsstring) (p : Page)
  : list Node :=
  withHtml n (formatted d text)
    ((if attached l p then without l (view p) else view p)
       ++ [Message n TAi (InnerHTML (formatted d []))]).

Definition userTurn (text : jsstring) : Turn :=
  {| role := user; content := text |}.

Definition assistantTurn (text : jsstring) : Turn :=
  {| role := assistant; content := text |}.

(** The page when the [try] block is entered: the user's bubble and the
    loading placeholder are in the view, the user's turn is in the
    transcript. *)
Definition submitted (d : Deps) (layout : list Node -> Z) (p : Page)
  (text : jsstring) : Page :=
  let n := nextId p in
  let v := (view p ++ [Message n TUser (TextContent text)])
             ++ [LoadingDiv (S n)] in
  let h := conversationHistory p ++ [userTurn text] in
  {| conversationHistory := h;
     view := v;
     viewport := relaid layout v (viewport p) true;
     nextId := S (S n);
     log := (log p ++ [EvPush (userTurn text)]) ++ saveEvents d h |}.

(** The events of the streaming phase. *)
Definition streamEvents (d : Deps) (rs : list Read) : list Event :=
  match rs with
  | [] => []
  | _ :: _ => typesetEvents d ++ renders d [] rs
  end.

(** The reads that carried data before the transport failed, when it
    does. *)
Definition readsBeforeFailure (net : Net) : option (list Read) :=
  match net with
  | FetchFails | BadStatus => Some []
  | Stream rs ReadFails => Some rs
  | Stream _ (Done _) => None
  end.

(* ===================================================================== *)
(** ** A concrete setting *)
(* ===================================================================== *)

(** A parser and a sanitizer that return their input, with the history
    store and the math typesetter present. *)
Definition exampleDeps : Deps :=
  {| marked := Some Returns; DOMPurify := Some Returns;
     electronAPI := true; MathJax := true |}.


(** Every child of [chatHistory] is a hundred pixels high. *)
Definition exampleLayout (v : list Node) : Z :=
  100 * Z.of_nat (List.length v).

Definition atBottom : Viewport :=
  {| scrollHeight := 1000; scrollTop := 400; clientHeight := 600 |}.

Definition scrolledUp : Viewport :=
  {| scrollHeight := 1000; scrollTop := 0; clientHeight := 600 |}.

(** The page before the first turn. *)
Definition examplePage : Page :=
  {| conversationHistory := []; view := [];
     viewport := {| scrollHeight := 0; scrollTop := 0;
                    clientHeight := 600 |};
     nextId := 0; log := [] |}.

(** A response that arrives in two reads. *)
Definition exampleReads : list Read :=
  [ {| seen := atBottom; chunk := str "2+2 " |};
    {| seen := scrolledUp; chunk := str "is 4" |} ].

(* ===================================================================== *)
(** ** Vocabulary of the further statements *)
(* ===================================================================== *)

(** The code units of a decimal numeral. *)
Fixpoint digitsOf (d : Decimal.uint) : jsstring :=
  match d with
  | Decimal.Nil => []
  | Decimal.D0 d' => 48%N :: digitsOf d'
  | Decimal.D1 d' => 49%N :: digitsOf d'
  | Decimal.D2 d' => 50%N :: digitsOf d'
  | Decimal.D3 d' => 51%N :: digitsOf d'
  | Decimal.D4 d' => 52%N :: digitsOf d'
  | Decimal.D5 d' => 53%N :: digitsOf d'
  | Decimal.D6 d' => 54%N :: digitsOf d'
  | Decimal.D7 d' => 55%N :: digitsOf d'
  | Decimal.D8 d' => 56%N :: digitsOf d'
  | Decimal.D9 d' => 57%N :: digitsOf d'
  end.

(** [table[i]] as the template literal prints it. *)
Definition printed (table : list jsstring) (i : nat) : jsstring :=
  match nth_error table i with
  | Some tex => tex
  | None => str "undefined"
  end.

(** The last transcript handed to the history store. *)
Fixpoint lastSaved (l : list Event) : option (list Turn) :=
  match l with
  | [] => None
  | e :: l' =>
      match lastSaved l' with
      | Some h => Some h
      | None =>
          match e with
          | EvSaveHistory h => Some h
          | _ => None
          end
      end
  end.

(** The text received over the first [k] reads. *)
Definition receivedUpTo (k : nat) (reads : list Read) : jsstring :=
  received (firstn k reads).

(* ===================================================================== *)
(** ** Start-up: the saved transcript *)
(* ===================================================================== *)

Definition greeting : jsstring := str "Hey, Rafay what can I help you with?".

(** [msg.role === 'assistant' ? 'ai' : msg.role] *)
Definition typeOfRole (r : Role) : MsgType :=
  match r with
  | assistant => TAi
  | user => TUser
  | system => TSystem
  end.

(** What [electronAPI.loadHistory()] resolves to. *)
Inductive Loaded : Type :=
| LoadFails                 (* the promise rejects *)
| NotAnArray                (* null, or a value that is not an array *)
| Saved (h : list Turn).    (* an array of turns *)

(** [conversationHistory = savedHistory] *)
Definition setHistory (h : list Turn) : M unit :=
  modify (fun p =>
    {| conversationHistory := h; view := view p; viewport := viewport p;
       nextId := nextId p; log := log p |}).

(** [conversationHistory.forEach(msg => addMessage(...))] *)
Fixpoint renderTurns (d : Deps) (layout : list Node -> Z) (h : list Turn)
  : M unit :=
  match h with
  | [] => ret tt
  | t :: h' =>
      bind (addMessage d layout (content t) (typeOfRole (role t)))
        (fun _ => renderTurns d layout h')
  end.

Definition greet (d : Deps) (layout : list Node -> Z) : M unit :=
  bind (addMessage d layout greeting TAi) (fun _ => ret tt).

(** The part of the [DOMContentLoaded] handler that loads the history. *)
Definition loadHistory (d : Deps) (layout : list Node -> Z)
  (stored : Loaded) : M unit :=
  if electronAPI d then
    tryCatchM
      match stored with
      | LoadFails => throw
      | NotAnArray => greet d layout
      | Saved [] => greet d layout
      | Saved (t :: h) =>
          bind (setHistory (t :: h))
            (fun _ => renderTurns d layout (t :: h))
      end
      (greet d layout)
  else greet d layout.

(** How a turn of the transcript is shown: the kind of its bubble and what
    fills it. *)
Definition bodyOf (d : Deps) (type : MsgType) (text : jsstring) : Body :=
  match type with
  | TUser => TextContent text
  | TAi | TSystem => InnerHTML (formatted d text)
  end.

(** The bubbles of the turns [h], created from the identity [n] on. *)
Fixpoint bubbles (d : Deps) (n : nat) (h : list Turn) : list Node :=
  match h with
  | [] => []
  | t :: h' =>
      Message n (typeOfRole (role t))
        (bodyOf d (typeOfRole (role t)) (content t))
        :: bubbles d (S n) h'
  end.

(** A child of [chatHistory] without its identity. *)
Definition shown (n : Node) : option (MsgType * Body) :=
  match n with
  | Message _ type body => Some (type, body)
  | LoadingDiv _ => None
  end.

(** A parser that returns its input and a sanitizer that throws. *)
Definition brokenSanitizer : Deps :=
  {| marked := Some Returns; DOMPurify := Some (fun _ => Throws);
     electronAPI := false; MathJax := false |}.

(** No markdown parser was found. *)
Definition degradedDeps : Deps :=
  {| marked := None; DOMPurify := None;
     electronAPI := false; MathJax := false |}.

(** The text of the regular-expression test script. *)
Definition debugContent : jsstring :=
  str "The Pythagorean theorem is ... expressed as:"
    ++ [LF; LF] ++ str "\[ c^2 = a^2 + b^2 \]" ++ [LF; LF]
    ++ str "where \( c \) represents...".

(* ===================================================================== *)
(** ** The formatter returns *)
(* ===================================================================== *)

Lemma formatMessage_returns (d : Deps) (text : jsstring) :
  formatMessage d text = Returns (formatted d text).
Proof.
  unfold formatted, formatMessage.
  destruct (marked d) as [parse|]; [|reflexivity].
  destruct (maskDisplay (stripThink text)) as [c1 displayMath].
  destruct (maskInline c1) as [c2 inlineMath].
  reflexivity.
Qed.

Lemma callFormat_run (d : Deps) (text : jsstring) (p : Page) :
  callFormat d text p = (p, Some (formatted d text)).
Proof.
  unfold callFormat. rewrite formatMessage_returns. reflexivity.
Qed.

(* ===================================================================== *)
(** ** Facts about trim *)
(* ===================================================================== *)

Lemma trimStart_suffix (s : jsstring) : exists x, s = x ++ trimStart s.
Proof.
  induction s as [|c s [x IH]].
  - exists []. reflexivity.
  - simpl. destruct (isSpace c).
    + exists (c :: x). simpl. rewrite <- IH. reflexivity.
    + exists []. reflexivity.
Qed.

Lemma trimEnd_prefix (s : jsstring) : exists y, s = trimEnd s ++ y.
Proof.
  unfold trimEnd. destruct (trimStart_suffix (rev s)) as [x Hx].
  exists (rev x). rewrite <- rev_app_distr, <- Hx, rev_involutive.
  reflexivity.
Qed.

Lemma trim_infix (s : jsstring) : exists x y, s = x ++ trim s ++ y.
Proof.
  unfold trim. destruct (trimStart_suffix s) as [x Hx].
  destruct (trimEnd_prefix (trimStart s)) as [y Hy].
  exists x, y. rewrite <- Hy. exact Hx.
Qed.

Lemma trimStart_nonspace (c : char) (s : jsstring) :
  isSpace c = false -> trimStart (c :: s) = c :: s.
Proof. intros H. simpl. rewrite H. reflexivity. Qed.

(** Leading white space is stripped through a border that is not white
    space. *)
Lemma trimStart_app (p : jsstring) (c : char) (s : jsstring) :
  isSpace c = false -> trimStart (p ++ c :: s) = trimStart p ++ c :: s.
Proof.
  intros H. induction p as [|a p IH]; simpl.
  - rewrite H. reflexivity.
  - destruct (isSpace a); [exact IH|reflexivity].
Qed.

Lemma trimEnd_app (s : jsstring) (c : char) (q : jsstring) :
  isSpace c = false -> trimEnd ((s ++ [c]) ++ q) = (s ++ [c]) ++ trimEnd q.
Proof.
  intros H. unfold trimEnd.
  rewrite !rev_app_distr. simpl.
  rewrite (trimStart_app (rev q) c (rev s) H).
  rewrite rev_app_distr. simpl. rewrite rev_involutive, <- app_assoc.
  reflexivity.
Qed.

Lemma trimStart_absorb (p s : jsstring) :
  trimStart (trimStart p ++ s) = trimStart (p ++ s).
Proof.
  induction p as [|a p IH]; [reflexivity|].
  simpl. destruct (isSpace a) eqn:E; [exact IH|].
  simpl. rewrite E. reflexivity.
Qed.


Lemma trimStart_snoc (s : jsstring) (c : char) :
  trimStart (s ++ [c]) =
    if forallb isSpace s && isSpace c then [] else trimStart s ++ [c].
Proof.
  induction s as [|a s IH]; simpl.
  - destruct (isSpace c); reflexivity.
  - destruct (isSpace a); simpl; [exact IH|reflexivity].
Qed.

Lemma trimStart_all_space (s : jsstring) :
  forallb isSpace s = true -> trimStart s = [].
Proof.
  induction s as [|a s IH]; simpl; [reflexivity|].
  destruct (isSpace a); simpl; [exact IH|discriminate].
Qed.

Lemma forallb_rev' (f : char -> bool) (s : jsstring) :
  forallb f (rev s) = forallb f s.
Proof.
  induction s as [|a s IH]; [reflexivity|].
  simpl. rewrite forallb_app, IH. simpl. rewrite andb_true_r.
  apply andb_comm.
Qed.

Lemma trimEnd_cons (c : char) (s : jsstring) :
  trimEnd (c :: s) =
    if forallb isSpace s && isSpace c then [] else c :: trimEnd s.
Proof.
  unfold trimEnd. simpl. rewrite trimStart_snoc.
  rewrite forallb_rev'.
  destruct (forallb isSpace s && isSpace c); [reflexivity|].
  rewrite rev_app_distr. reflexivity.
Qed.

Lemma trimEnd_all_space (s : jsstring) :
  forallb isSpace s = true -> trimEnd s = [].
Proof.
  intros H. unfold trimEnd. rewrite trimStart_all_space; [reflexivity|].
  rewrite forallb_rev'. exact H.
Qed.

(** Both ends are stripped, in either order. *)
Lemma trim_comm (s : jsstring) : trimEnd (trimStart s) = trimStart (trimEnd s).
Proof.
  induction s as [|c s IH]; [reflexivity|].
  rewrite trimEnd_cons. simpl.
  destruct (isSpace c) eqn:E.
  - rewrite IH. destruct (forallb isSpace s) eqn:A; simpl.
    + rewrite trimEnd_all_space by exact A. reflexivity.
    + rewrite E. reflexivity.
  - rewrite andb_false_r. rewrite trimEnd_cons, E, andb_false_r.
    simpl. rewrite E. reflexivity.
Qed.

Lemma trimStart_idempotent (s : jsstring) :
  trimStart (trimStart s) = trimStart s.
Proof.
  rewrite <- (app_nil_r (trimStart s)) at 1.
  rewrite trimStart_absorb, app_nil_r. reflexivity.
Qed.

Lemma trimEnd_idempotent (s : jsstring) : trimEnd (trimEnd s) = trimEnd s.
Proof.
  unfold trimEnd. rewrite rev_involutive, trimStart_idempotent. reflexivity.
Qed.

Lemma trim_idempotent (s : jsstring) : trim (trim s) = trim s.
Proof.
  unfold trim. rewrite <- (trim_comm (trimStart s)).
  rewrite trimStart_idempotent, trimEnd_idempotent. reflexivity.
Qed.


(* ===================================================================== *)
(** ** Facts about substring search *)
(* ===================================================================== *)

Section SearchFacts.

Variable norm : char -> char.

Lemma stripPrefix_app (pat o r : jsstring) :
  map norm o = pat -> stripPrefix norm pat (o ++ r) = Some r.
Proof.
  revert pat. induction o as [|c o IH]; intros pat H; subst pat; simpl.
  - reflexivity.
  - rewrite N.eqb_refl. apply IH. reflexivity.
Qed.

Lemma stripPrefix_inv (pat s r : jsstring) :
  stripPrefix norm pat s = Some r ->
  exists o, s = o ++ r /\ map norm o = pat.
Proof.
  revert s. induction pat as [|p pat IH]; intros s H; simpl in H.
  - exists []. inversion H. split; reflexivity.
  - destruct s as [|c s]; [discriminate|].
    destruct (norm c =? p)%N eqn:E; [|discriminate].
    apply N.eqb_eq in E. destruct (IH s H) as (o & Hs & Ho).
    exists (c :: o). simpl. rewrite <- Hs, Ho, E. split; reflexivity.
Qed.

Lemma stripPrefix_app_l (pat s r x : jsstring) :
  stripPrefix norm pat s = Some r ->
  stripPrefix norm pat (s ++ x) = Some (r ++ x).
Proof.
  intros H. destruct (stripPrefix_inv pat s r H) as (o & Hs & Ho).
  subst s. rewrite <- app_assoc. apply stripPrefix_app. exact Ho.
Qed.

(** A match at the head of [x ++ r] lies inside [x], or [x] is shorter than
    the pattern and the rest of the pattern matches at the head of [r]. *)
Lemma stripPrefix_split (pat x r rest : jsstring) :
  stripPrefix norm pat (x ++ r) = Some rest ->
  (exists rest', stripPrefix norm pat x = Some rest' /\ rest = rest' ++ r)
  \/ (List.length x < List.length pat
      /\ stripPrefix norm (skipn (List.length x) pat) r = Some rest).
Proof.
  revert x. induction pat as [|p pat IH]; intros x H.
  - left. exists x. simpl in *. inversion H. split; reflexivity.
  - destruct x as [|c x].
    + right. simpl. split; [lia|exact H].
    + simpl in H. destruct (norm c =? p)%N eqn:E; [|discriminate].
      destruct (IH x H) as [(rest' & H1 & H2)|[H1 H2]].
      * left. exists rest'. simpl. rewrite E. split; assumption.
      * right. simpl. split; [lia|exact H2].
Qed.

Lemma disagree_strip (q o c : jsstring) :
  disagree q (map norm o) = true -> stripPrefix norm q (o ++ c) = None.
Proof.
  revert o. induction q as [|p q IH]; intros o H; [discriminate|].
  destruct o as [|a o]; [discriminate|]. simpl in *.
  rewrite N.eqb_sym. destruct (p =? norm a)%N; [apply IH; exact H|reflexivity].
Qed.

(** An occurrence that starts before a text beginning with [other] ends
    before it, when the pattern is apart from [other]. *)
Lemma no_straddle (pat other x o c rest : jsstring) :
  apart pat other = true ->
  map norm o = other ->
  x <> [] ->
  stripPrefix norm pat (x ++ o ++ c) = Some rest ->
  exists rest', stripPrefix norm pat x = Some rest' /\ rest = rest' ++ o ++ c.
Proof.
  intros HA HO HX H.
  destruct (stripPrefix_split pat x (o ++ c) rest H) as [HL|[HL HR]];
    [exact HL|exfalso].
  unfold apart in HA. rewrite forallb_forall in HA.
  assert (In (List.length x) (seq 1 (List.length pat - 1))) as HI.
  { apply in_seq. destruct x; [congruence|]. simpl in *. lia. }
  specialize (HA _ HI). subst other.
  rewrite (disagree_strip _ _ _ HA) in HR. discriminate.
Qed.

Lemma findSub_inv (pat s a b : jsstring) :
  findSub norm pat s = Some (a, b) ->
  exists o, s = a ++ o ++ b /\ map norm o = pat.
Proof.
  revert a. induction s as [|c s IH]; intros a H; simpl in H.
  - destruct (stripPrefix norm pat []) as [r|] eqn:E; [|discriminate].
    inversion H; subst. destruct (stripPrefix_inv _ _ _ E) as (o & Hs & Ho).
    exists o. split; assumption.
  - destruct (stripPrefix norm pat (c :: s)) as [r|] eqn:E.
    + inversion H; subst. destruct (stripPrefix_inv _ _ _ E) as (o & Hs & Ho).
      exists o. split; assumption.
    + destruct (findSub norm pat s) as [[a' b']|] eqn:F; [|discriminate].
      inversion H; subst. destruct (IH a' eq_refl) as (o & Hs & Ho).
      exists o. simpl. rewrite <- Hs. split; [reflexivity|exact Ho].
Qed.

Lemma findSub_unfold (pat s : jsstring) :
  findSub norm pat s =
    match stripPrefix norm pat s with
    | Some rest => Some ([], rest)
    | None =>
        match s with
        | [] => None
        | c :: s' =>
            match findSub norm pat s' with
            | Some (a, b) => Some (c :: a, b)
            | None => None
            end
        end
    end.
Proof. destruct s; reflexivity. Qed.

Lemma hasSub_false_strip (pat x s : jsstring) :
  hasSub norm pat (x ++ s) = false -> stripPrefix norm pat s = None.
Proof.
  unfold hasSub. induction x as [|c x IH]; simpl; intros H.
  - rewrite findSub_unfold in H.
    destruct (stripPrefix norm pat s); [discriminate|reflexivity].
  - destruct (stripPrefix norm pat (c :: x ++ s)); [discriminate|].
    apply IH. destruct (findSub norm pat (x ++ s)) as [[a b]|];
      [discriminate|reflexivity].
Qed.

Lemma hasSub_suffix (pat x s : jsstring) :
  hasSub norm pat (x ++ s) = false -> hasSub norm pat s = false.
Proof.
  unfold hasSub. induction x as [|c x IH]; simpl; intros H; [exact H|].
  destruct (stripPrefix norm pat (c :: x ++ s)); [discriminate|].
  apply IH. destruct (findSub norm pat (x ++ s)) as [[a b]|];
    [discriminate|reflexivity].
Qed.


Lemma hasSub_cons (pat : jsstring) (c : char) (s : jsstring) :
  hasSub norm pat (c :: s) = false -> hasSub norm pat s = false.
Proof. apply (hasSub_suffix pat [c] s). Qed.

(** The first occurrence of a pattern that is apart from itself: after a
    text without occurrence comes the occurrence itself. *)
Lemma findSub_first (pat a e b : jsstring) :
  apart pat pat = true ->
  hasSub norm pat a = false ->
  map norm e = pat ->
  findSub norm pat (a ++ e ++ b) = Some (a, b).
Proof.
  intros HA HN HE. induction a as [|c a IH].
  - simpl. rewrite findSub_unfold, (stripPrefix_app _ _ _ HE). reflexivity.
  - rewrite findSub_unfold.
    destruct (stripPrefix norm pat ((c :: a) ++ e ++ b)) as [r|] eqn:E.
    + destruct (no_straddle pat pat (c :: a) e b r HA HE ltac:(discriminate) E)
        as (r' & H1 & _).
      pose proof (hasSub_false_strip pat [] (c :: a) HN) as H2.
      rewrite H1 in H2. discriminate.
    + simpl. rewrite (IH (hasSub_cons _ _ _ HN)). reflexivity.
Qed.

Lemma findSub_length (pat s a b : jsstring) :
  findSub norm pat s = Some (a, b) ->
  List.length s = List.length a + List.length pat + List.length b.
Proof.
  intros H. destruct (findSub_inv _ _ _ _ H) as (o & Hs & Ho).
  subst s pat. rewrite !length_app, length_map. lia.
Qed.

Lemma findSub_app_l (pat s a b r : jsstring) :
  findSub norm pat s = Some (a, b) ->
  findSub norm pat (s ++ r) = Some (a, b ++ r).
Proof.
  revert a. induction s as [|c s IH]; intros a H.
  - rewrite findSub_unfold in H.
    destruct (stripPrefix norm pat []) as [x|] eqn:E; [|discriminate].
    inversion H; subst. rewrite findSub_unfold.
    rewrite (stripPrefix_app_l _ _ _ r E). reflexivity.
  - rewrite findSub_unfold in H.
    destruct (stripPrefix norm pat (c :: s)) as [x|] eqn:E.
    + inversion H; subst. rewrite findSub_unfold.
      rewrite (stripPrefix_app_l _ _ _ r E). reflexivity.
    + destruct (findSub norm pat s) as [[a' b']|] eqn:F; [|discriminate].
      inversion H; subst. rewrite findSub_unfold.
      destruct (stripPrefix norm pat ((c :: s) ++ r)) as [y|] eqn:E2.
      * exfalso.
        destruct (stripPrefix_split _ _ _ _ E2) as [(y' & H1 & _)|[H1 _]].
        -- rewrite H1 in E. discriminate.
        -- pose proof (findSub_length _ _ _ _ F). simpl in H1. lia.
      * simpl. rewrite (IH a' eq_refl). reflexivity.
Qed.

Lemma hasSub_prefix (pat s y : jsstring) :
  hasSub norm pat (s ++ y) = false -> hasSub norm pat s = false.
Proof.
  unfold hasSub. intros H.
  destruct (findSub norm pat s) as [[a b]|] eqn:F; [|reflexivity].
  rewrite (findSub_app_l _ _ _ _ y F) in H. discriminate.
Qed.

Lemma hasSub_infix (pat x s y : jsstring) :
  hasSub norm pat (x ++ s ++ y) = false -> hasSub norm pat s = false.
Proof.
  intros H. apply hasSub_suffix in H. apply hasSub_prefix in H. exact H.
Qed.

Lemma hasSub_trim (pat s : jsstring) :
  hasSub norm pat s = false -> hasSub norm pat (trim s) = false.
Proof.
  intros H. destruct (trim_infix s) as (x & y & E).
  rewrite E in H. exact (hasSub_infix _ _ _ _ H).
Qed.


(** Appending a text that starts with [other] and holds no occurrence
    creates no occurrence, when the pattern is apart from [other]. *)
Lemma findSub_keep (pat other s o c : jsstring) :
  apart pat other = true ->
  map norm o = other ->
  hasSub norm pat (o ++ c) = false ->
  findSub norm pat (s ++ o ++ c) =
    match findSub norm pat s with
    | Some (a, b) => Some (a, b ++ o ++ c)
    | None => None
    end.
Proof.
  intros HA HO HN.
  destruct (findSub norm pat s) as [[a b]|] eqn:F.
  - apply findSub_app_l. exact F.
  - induction s as [|x s IH].
    + simpl. unfold hasSub in HN.
      destruct (findSub norm pat (o ++ c)); [discriminate|reflexivity].
    + rewrite findSub_unfold in F. rewrite findSub_unfold.
      destruct (stripPrefix norm pat (x :: s)) as [r|] eqn:E; [discriminate|].
      destruct (stripPrefix norm pat ((x :: s) ++ o ++ c)) as [r|] eqn:E2.
      * destruct (no_straddle pat other (x :: s) o c r HA HO
                    ltac:(discriminate) E2) as (r' & H1 & _).
        rewrite H1 in E. discriminate.
      * simpl. destruct (findSub norm pat s) as [[a b]|]; [discriminate|].
        rewrite IH; reflexivity.
Qed.

(** The text before the first occurrence holds no occurrence. *)
Lemma findSub_before (pat s a b : jsstring) :
  pat <> [] ->
  findSub norm pat s = Some (a, b) -> hasSub norm pat a = false.
Proof.
  intros HP. revert a. induction s as [|c s IH]; intros a H;
    rewrite findSub_unfold in H.
  - destruct (stripPrefix norm pat []) as [r|] eqn:E; [|discriminate].
    destruct pat; [congruence|discriminate].
  - destruct (stripPrefix norm pat (c :: s)) as [r|] eqn:E.
    + inversion H; subst. unfold hasSub. rewrite findSub_unfold.
      destruct pat; [congruence|reflexivity].
    + destruct (findSub norm pat s) as [[a' b']|] eqn:F; [|discriminate].
      inversion H; subst. specialize (IH a' eq_refl).
      unfold hasSub in *. rewrite findSub_unfold.
      destruct (stripPrefix norm pat (c :: a')) as [r|] eqn:E2.
      * destruct (findSub_inv _ _ _ _ F) as (o & Hs & _). subst s.
        change (c :: a' ++ o ++ b) with ((c :: a') ++ o ++ b) in E.
        rewrite (stripPrefix_app_l _ _ _ _ E2) in E. discriminate.
      * destruct (findSub norm pat a') as [[x y]|]; [discriminate|].
        reflexivity.
Qed.

Lemma findSub_none (pat s : jsstring) :
  hasSub norm pat s = false -> findSub norm pat s = None.
Proof.
  unfold hasSub. destruct (findSub norm pat s); [discriminate|reflexivity].
Qed.

End SearchFacts.

(* ===================================================================== *)
(** ** Facts about global replacement *)
(* ===================================================================== *)

Section ReplaceFacts.

Variable A : Type.
Variable matchAt : jsstring -> option (nat * A).
Variable emit : nat -> A -> jsstring.

Lemma replaceFrom_scan (idx : nat) (c : char) (s : jsstring) :
  replaceFrom matchAt emit idx 0 (c :: s) =
    match matchAt (c :: s) with
    | Some (len, a) =>
        (emit idx a ++ fst (replaceFrom matchAt emit (S idx) (Nat.pred len) s),
         a :: snd (replaceFrom matchAt emit (S idx) (Nat.pred len) s))
    | None =>
        (c :: fst (replaceFrom matchAt emit idx 0 s),
         snd (replaceFrom matchAt emit idx 0 s))
    end.
Proof.
  simpl. destruct (matchAt (c :: s)) as [[len a]|].
  - destruct (replaceFrom matchAt emit (S idx) (Nat.pred len) s). reflexivity.
  - destruct (replaceFrom matchAt emit idx 0 s). reflexivity.
Qed.

(** The code units of a match are dropped. *)
Lemma replaceFrom_skip (idx : nat) (x s : jsstring) :
  replaceFrom matchAt emit idx (List.length x) (x ++ s) =
    replaceFrom matchAt emit idx 0 s.
Proof.
  induction x as [|c x IH]; [destruct s; reflexivity|exact IH].
Qed.

(** Where no match starts, the text is copied. *)
Lemma replaceFrom_copy (idx : nat) (x s : jsstring) :
  (forall x1 c x2, x = x1 ++ c :: x2 -> matchAt (c :: x2 ++ s) = None) ->
  replaceFrom matchAt emit idx 0 (x ++ s) =
    (x ++ fst (replaceFrom matchAt emit idx 0 s),
     snd (replaceFrom matchAt emit idx 0 s)).
Proof.
  induction x as [|c x IH]; intros H.
  - simpl. destruct (replaceFrom matchAt emit idx 0 s). reflexivity.
  - change ((c :: x) ++ s) with (c :: x ++ s).
    rewrite replaceFrom_scan, (H [] c x eq_refl).
    rewrite IH; [reflexivity|].
    intros x1 c' x2 E. apply (H (c :: x1) c' x2). rewrite E. reflexivity.
Qed.

Lemma replaceFrom_none (idx : nat) (s : jsstring) :
  (forall x1 c x2, s = x1 ++ c :: x2 -> matchAt (c :: x2) = None) ->
  replaceFrom matchAt emit idx 0 s = (s, []).
Proof.
  intros H. rewrite <- (app_nil_r s) at 1.
  rewrite replaceFrom_copy.
  - simpl. rewrite app_nil_r. reflexivity.
  - intros x1 c x2 E. rewrite app_nil_r. exact (H x1 c x2 E).
Qed.

(** At a match, the replacement is emitted and the scan resumes after the
    match. *)
Lemma replaceFrom_match (idx : nat) (c : char) (m s : jsstring) (a : A) :
  matchAt ((c :: m) ++ s) = Some (List.length (c :: m), a) ->
  replaceFrom matchAt emit idx 0 ((c :: m) ++ s) =
    (emit idx a ++ fst (replaceFrom matchAt emit (S idx) 0 s),
     a :: snd (replaceFrom matchAt emit (S idx) 0 s)).
Proof.
  intros H. change ((c :: m) ++ s) with (c :: m ++ s) in *.
  rewrite replaceFrom_scan, H. simpl. rewrite replaceFrom_skip.
  reflexivity.
Qed.


End ReplaceFacts.

(* ===================================================================== *)
(** ** Facts about the removal passes *)
(* ===================================================================== *)


Lemma foreign_no_start (norm : char -> char) (pat other o c : jsstring) :
  foreign pat other = true ->
  map norm o = other ->
  hasSub norm pat c = false ->
  hasSub norm pat (o ++ c) = false.
Proof.
  intros HF HO HC. unfold foreign in HF. rewrite forallb_forall in HF.
  assert (forall o1 o2, o = o1 ++ o2 -> o2 <> [] ->
            disagree pat (map norm o2) = true) as HD.
  { intros o1 o2 E HN. subst o other.
    specialize (HF (List.length o1)).
    rewrite map_app, <- (length_map norm o1), skipn_app, Nat.sub_diag in HF.
    rewrite skipn_all in HF. simpl in HF. apply HF. apply in_seq.
    rewrite !length_app, !length_map. destruct o2; [congruence|].
    simpl. lia. }
  clear HF HO. induction o as [|a o IH]; [exact HC|].
  unfold hasSub. rewrite findSub_unfold.
  rewrite (disagree_strip norm pat (a :: o) c
             (HD [] (a :: o) eq_refl ltac:(discriminate))).
  simpl. rewrite (findSub_none norm); [reflexivity|].
  apply IH. intros o1 o2 E HN. apply (HD (a :: o1) o2); [|exact HN].
  rewrite E. reflexivity.
Qed.

Section PassFacts.

Variables open close : jsstring.



(** Without a start tag nothing is removed. *)
Lemma pairs_no_open (s : jsstring) (idx : nat) :
  hasSub canonicalize open s = false ->
  replaceFrom (matchPair open close) erase idx 0 s = (s, []).
Proof.
  intros H. apply replaceFrom_none. intros x1 c x2 E. subst s.
  unfold matchPair. rewrite (hasSub_false_strip _ _ _ _ H). reflexivity.
Qed.




End PassFacts.

(** [removeOpenTail] keeps the text before the first start tag. *)
Lemma removeOpenTail_cut (open s : jsstring) :
  removeOpenTail open s =
    match findSub canonicalize open s with
    | Some (a, _) => a
    | None => s
    end.
Proof.
  unfold removeOpenTail, replaceAll. generalize 0 at 1.
  induction s as [|c s IH]; intros idx.
  - simpl. destruct (stripPrefix canonicalize open []); reflexivity.
  - rewrite replaceFrom_scan, findSub_unfold. unfold matchOpenTail at 1.
    destruct (stripPrefix canonicalize open (c :: s)) as [rest|].
    + simpl. rewrite <- (app_nil_r s) at 2. rewrite replaceFrom_skip.
      reflexivity.
    + simpl. rewrite IH.
      destruct (findSub canonicalize open s) as [[a b]|]; reflexivity.
Qed.

Lemma removeOpenTail_clean (open s : jsstring) :
  open <> [] ->
  hasSub canonicalize open (removeOpenTail open s) = false.
Proof.
  intros HO. rewrite removeOpenTail_cut.
  destruct (findSub canonicalize open s) as [[a b]|] eqn:F.
  - exact (findSub_before _ _ _ _ _ HO F).
  - unfold hasSub. rewrite F. reflexivity.
Qed.

Lemma removeOpenTail_prefix (open s : jsstring) :
  exists y, s = removeOpenTail open s ++ y.
Proof.
  rewrite removeOpenTail_cut.
  destruct (findSub canonicalize open s) as [[a b]|] eqn:F.
  - destruct (findSub_inv _ _ _ _ _ F) as (o & Hs & _).
    exists (o ++ b). exact Hs.
  - exists []. rewrite app_nil_r. reflexivity.
Qed.

Lemma removeOpenTail_id (open s : jsstring) :
  hasSub canonicalize open s = false -> removeOpenTail open s = s.
Proof.
  intros H. rewrite removeOpenTail_cut, (findSub_none _ _ _ H). reflexivity.
Qed.

Lemma removePairs_id (open close s : jsstring) :
  hasSub canonicalize open s = false -> removePairs open close s = s.
Proof.
  intros H. unfold removePairs, replaceAll.
  rewrite pairs_no_open by exact H. reflexivity.
Qed.

(** A text without start tag, in either spelling, is only trimmed. *)
Lemma stripThink_clean (s : jsstring) :
  hasSub canonicalize Tags.rawOpen s = false ->
  hasSub canonicalize Tags.escOpen s = false ->
  stripThink s = trim s.
Proof.
  intros HR HE. unfold stripThink.
  rewrite (removePairs_id _ _ _ HR).
  rewrite (removePairs_id _ _ _ (hasSub_trim _ _ _ HE)), trim_idempotent.
  rewrite (removeOpenTail_id _ _ (hasSub_trim _ _ _ HR)), trim_idempotent.
  rewrite (removeOpenTail_id _ _ (hasSub_trim _ _ _ HE)), trim_idempotent.
  reflexivity.
Qed.

Lemma formatMessage_clean (d : Deps) (x y : jsstring) :
  marked d <> None ->
  stripThink x = stripThink y ->
  formatMessage d x = formatMessage d y.
Proof.
  intros HM HS. unfold formatMessage.
  destruct (marked d); [|congruence]. rewrite HS. reflexivity.
Qed.

(* ===================================================================== *)
(** ** The reasoning-suppression stage *)
(* ===================================================================== *)

Ltac flat := repeat (progress (rewrite <- ?app_assoc; cbn [app])).



(** Trimming around a text that neither begins nor ends with white
    space. *)
Lemma trim_around (p q : jsstring) (c z : char) (m : jsstring) :
  isSpace c = false ->
  isSpace z = false ->
  trim (p ++ (c :: m ++ [z]) ++ q) =
    trimStart p ++ (c :: m ++ [z]) ++ trimEnd q.
Proof.
  intros Hc Hz. unfold trim.
  change (p ++ (c :: m ++ [z]) ++ q) with (p ++ c :: (m ++ [z]) ++ q).
  rewrite (trimStart_app p c _ Hc).
  replace (trimStart p ++ c :: (m ++ [z]) ++ q)
    with (((trimStart p ++ c :: m) ++ [z]) ++ q)
    by (flat; reflexivity).
  rewrite (trimEnd_app _ z q Hz). flat. reflexivity.
Qed.

Lemma findSub_some (norm : char -> char) (pat x o y : jsstring) :
  map norm o = pat ->
  exists a b, findSub norm pat (x ++ o ++ y) = Some (a, b).
Proof.
  intros HO. induction x as [|c x (a & b & IH)].
  - exists [], y. simpl. rewrite findSub_unfold.
    rewrite (stripPrefix_app norm _ _ _ HO). reflexivity.
  - rewrite findSub_unfold.
    destruct (stripPrefix norm pat ((c :: x) ++ o ++ y)) as [r|].
    + exists [], r. reflexivity.
    + exists (c :: a), b. simpl. rewrite IH. reflexivity.
Qed.

(** Across a text that reads as a tag foreign to [pat], occurrences of
    [pat] neither start nor end. *)
Lemma hasSub_join (norm : char -> char) (pat other x o y : jsstring) :
  apart pat other = true ->
  foreign pat other = true ->
  map norm o = other ->
  hasSub norm pat x = false ->
  hasSub norm pat y = false ->
  hasSub norm pat (x ++ o ++ y) = false.
Proof.
  intros HA HF HO HX HY. unfold hasSub.
  rewrite (findSub_keep norm pat other x o y HA HO
             (foreign_no_start norm _ _ _ _ HF HO HY)).
  rewrite (findSub_none norm _ _ HX). reflexivity.
Qed.






(** C10 (no start tag survives stage 1).  For every input the text that
    the four removal passes hand to math masking holds no occurrence of
    the raw start tag and none of the entity-escaped start tag, in any
    letter case. *)
Theorem no_start_tag_survives (text : jsstring) :
  hasSub canonicalize Tags.rawOpen (stripThink text) = false
  /\ hasSub canonicalize Tags.escOpen (stripThink text) = false.
Proof.
  unfold stripThink.
  set (t2 := trim (removePairs Tags.escOpen Tags.escClose
                     (trim (removePairs Tags.rawOpen Tags.rawClose text)))).
  set (t3 := trim (removeOpenTail Tags.rawOpen t2)).
  assert (hasSub canonicalize Tags.rawOpen t3 = false) as H3.
  { apply hasSub_trim. apply removeOpenTail_clean. discriminate. }
  split.
  - apply hasSub_trim.
    destruct (removeOpenTail_prefix Tags.escOpen t3) as (y & Hy).
    rewrite Hy in H3. exact (hasSub_prefix _ _ _ _ H3).
  - apply hasSub_trim. apply removeOpenTail_clean. discriminate.
Qed.

(* ===================================================================== *)
(** ** Facts about math masking and restoration *)
(* ===================================================================== *)

(** A text without the first code unit of the pattern is skipped. *)
Lemma findSub_skip (norm : char -> char) (p : char) (pat a s : jsstring) :
  forallb (fun c => negb (norm c =? p)%N) a = true ->
  findSub norm (p :: pat) (a ++ s) =
    match findSub norm (p :: pat) s with
    | Some (x, y) => Some (a ++ x, y)
    | None => None
    end.
Proof.
  induction a as [|c a IH]; intros H.
  - simpl. destruct (findSub norm (p :: pat) s) as [[x y]|]; reflexivity.
  - simpl in H. apply andb_true_iff in H. destruct H as [Hc Ha].
    change ((c :: a) ++ s) with (c :: a ++ s).
    rewrite findSub_unfold. simpl stripPrefix.
    apply negb_true_iff in Hc. rewrite Hc, (IH Ha).
    destruct (findSub norm (p :: pat) s) as [[x y]|]; reflexivity.
Qed.

Lemma findSub_absent (norm : char -> char) (p : char) (pat a : jsstring) :
  forallb (fun c => negb (norm c =? p)%N) a = true ->
  findSub norm (p :: pat) a = None.
Proof.
  intros H. rewrite <- (app_nil_r a), (findSub_skip norm p pat a [] H).
  reflexivity.
Qed.

Lemma plain_noDollar (s : jsstring) :
  plain s = true -> forallb (fun c => negb (exact c =? 36)%N) s = true.
Proof.
  unfold plain. intros H. rewrite forallb_forall in *. intros c Hc.
  specialize (H c Hc). unfold plainChar, exact in *.
  destruct (c =? 36)%N; [discriminate|reflexivity].
Qed.

Lemma plain_noBackslash (s : jsstring) :
  plain s = true -> forallb (fun c => negb (exact c =? 92)%N) s = true.
Proof.
  unfold plain. intros H. rewrite forallb_forall in *. intros c Hc.
  specialize (H c Hc). unfold plainChar, exact in *.
  destruct (c =? 92)%N; [|reflexivity].
  rewrite orb_true_r in H. discriminate.
Qed.

Lemma matchDisplay_plain (c : char) (s : jsstring) :
  plainChar c = true -> matchDisplay (c :: s) = None.
Proof.
  unfold plainChar, matchDisplay, lazySpan. simpl. unfold exact.
  destruct (c =? 36)%N; [discriminate|].
  destruct (c =? 92)%N; [discriminate|reflexivity].
Qed.

Lemma matchInline_plain (c : char) (s : jsstring) :
  plainChar c = true -> matchInline (c :: s) = None.
Proof.
  unfold plainChar, matchInline, lazySpan. simpl. unfold exact.
  destruct (c =? 36)%N; [discriminate|].
  destruct (c =? 92)%N; [discriminate|reflexivity].
Qed.

Lemma plain_split (x1 x2 : jsstring) (c : char) (s : jsstring) :
  plain s = true -> s = x1 ++ c :: x2 -> plainChar c = true.
Proof.
  unfold plain. intros H E. subst s. rewrite forallb_app in H.
  apply andb_true_iff in H. destruct H as [_ H]. simpl in H.
  apply andb_true_iff in H. tauto.
Qed.

Section MaskFacts.

Variable m : jsstring -> option (nat * jsstring).
Variable emit : nat -> jsstring -> jsstring.
Hypothesis m_plain :
  forall c s, plainChar c = true -> m (c :: s) = None.

(** A text of plain code units is copied. *)
Lemma mask_plain (idx : nat) (s : jsstring) :
  plain s = true -> replaceFrom m emit idx 0 s = (s, []).
Proof.
  intros H. apply replaceFrom_none. intros x1 c x2 E.
  apply m_plain. exact (plain_split x1 x2 c s H E).
Qed.

Lemma mask_plain_prefix (idx : nat) (p s : jsstring) :
  plain p = true ->
  replaceFrom m emit idx 0 (p ++ s) =
    (p ++ fst (replaceFrom m emit idx 0 s), snd (replaceFrom m emit idx 0 s)).
Proof.
  intros H. apply replaceFrom_copy. intros x1 c x2 E.
  apply m_plain. exact (plain_split x1 x2 c p H E).
Qed.

(** One span between plain texts is replaced by its placeholder. *)
Lemma mask_one (p q : jsstring) (x : char) (span : jsstring)
  (tex : jsstring) :
  plain p = true ->
  plain q = true ->
  m ((x :: span) ++ q) = Some (List.length (x :: span), tex) ->
  replaceAll m emit (p ++ (x :: span) ++ q) = (p ++ emit 0 tex ++ q, [tex]).
Proof.
  intros Hp Hq Hm. unfold replaceAll.
  rewrite (mask_plain_prefix 0 p _ Hp).
  rewrite (replaceFrom_match _ m emit 0 x span q tex Hm).
  rewrite (mask_plain 1 q Hq). reflexivity.
Qed.

End MaskFacts.

Lemma span_all (f : char -> bool) (t : jsstring) (c : char) (s : jsstring) :
  forallb f t = true -> f c = false -> span f (t ++ c :: s) = (t, c :: s).
Proof.
  intros Ht Hc. induction t as [|a t IH]; simpl.
  - rewrite Hc. reflexivity.
  - simpl in Ht. apply andb_true_iff in Ht. destruct Ht as [Ha Ht].
    rewrite Ha, (IH Ht). reflexivity.
Qed.

Lemma noDollar_exact (t : jsstring) :
  noDollar t = true -> forallb (fun c => negb (exact c =? 36)%N) t = true.
Proof. exact (fun H => H). Qed.

(** The four kinds of span at the head of a text. *)
Lemma matchDisplay_dollars (c : char) (t q : jsstring) :
  noDollar (c :: t) = true ->
  matchDisplay (str "$$" ++ (c :: t) ++ str "$$" ++ q) =
    Some (List.length (str "$$" ++ (c :: t) ++ str "$$"), trim (c :: t)).
Proof.
  intros H. unfold matchDisplay, lazySpan. simpl stripPrefix.
  simpl in H. apply andb_true_iff in H. destruct H as [_ H].
  change (t ++ 36%N :: 36%N :: q) with (t ++ str "$$" ++ q).
  rewrite (findSub_skip exact 36%N [36%N] t _ H).
  simpl. rewrite ?app_nil_r, !length_app. simpl.
  repeat (f_equal; try lia).
Qed.

Lemma matchDisplay_brackets (c : char) (t q : jsstring) :
  hasSub exact (str "\]") (c :: t) = false ->
  matchDisplay (str "\[" ++ (c :: t) ++ str "\]" ++ q) =
    Some (List.length (str "\[" ++ (c :: t) ++ str "\]"), trim (c :: t)).
Proof.
  intros H. unfold matchDisplay, lazySpan. simpl stripPrefix.
  cbv beta iota.
  change (t ++ 92%N :: 93%N :: q) with (t ++ str "\]" ++ q).
  rewrite (findSub_first exact (str "\]") t (str "\]") q eq_refl
             (hasSub_cons _ _ _ _ H) eq_refl).
  simpl. rewrite ?app_nil_r, !length_app. simpl.
  repeat (f_equal; try lia).
Qed.

Lemma matchInline_dollars (c : char) (t q : jsstring) :
  forallb notDollarNorLF (c :: t) = true ->
  matchInline (str "$" ++ (c :: t) ++ str "$" ++ q) =
    Some (List.length (str "$" ++ (c :: t) ++ str "$"), trim (c :: t)).
Proof.
  intros H. unfold matchInline. simpl stripPrefix at 1.
  cbv beta iota.
  pose proof (span_all notDollarNorLF (c :: t) 36%N q H eq_refl) as HS.
  cbn [app] in HS. rewrite HS.
  simpl. rewrite ?app_nil_r, !length_app. simpl.
  repeat (f_equal; try lia).
Qed.

Lemma matchInline_parens (c : char) (t q : jsstring) :
  hasSub exact (str "\)") (c :: t) = false ->
  matchInline (str "\(" ++ (c :: t) ++ str "\)" ++ q) =
    Some (List.length (str "\(" ++ (c :: t) ++ str "\)"), trim (c :: t)).
Proof.
  intros H. unfold matchInline, lazySpan. simpl stripPrefix.
  cbv beta iota.
  change (t ++ 92%N :: 41%N :: q) with (t ++ str "\)" ++ q).
  rewrite (findSub_first exact (str "\)") t (str "\)") q eq_refl
             (hasSub_cons _ _ _ _ H) eq_refl).
  simpl. rewrite ?app_nil_r, !length_app. simpl.
  repeat (f_equal; try lia).
Qed.

(** A text that holds no opening display delimiter is copied by the
    display pass. *)
Lemma maskDisplay_none (s : jsstring) :
  hasSub exact (str "$$") s = false ->
  hasSub exact (str "\[") s = false ->
  maskDisplay s = (s, []).
Proof.
  intros H1 H2. apply replaceFrom_none. intros x1 c x2 E. subst s.
  unfold matchDisplay, lazySpan.
  rewrite (hasSub_false_strip _ _ _ _ H1), (hasSub_false_strip _ _ _ _ H2).
  reflexivity.
Qed.

Lemma map_exact (s : jsstring) : map exact s = s.
Proof. apply map_id. Qed.

Lemma span_parts (f : char -> bool) (s a b : jsstring) :
  span f s = (a, b) -> s = a ++ b.
Proof.
  revert a b. induction s as [|c s IH]; intros a b H; simpl in H.
  - inversion H. reflexivity.
  - destruct (f c).
    + destruct (span f s) as [a' b'] eqn:E. inversion H; subst.
      simpl. rewrite (IH a' b eq_refl). reflexivity.
    + inversion H. reflexivity.
Qed.

(** A placeholder match ends in a percent sign after its digits. *)
Lemma matchToken_closing (name s : jsstring) (r : nat * jsstring) :
  matchToken name s = Some r ->
  exists a b, s = str "%%%" ++ a ++ 37%N :: b.
Proof.
  unfold matchToken. intros H.
  destruct (stripPrefix exact (str "%%%" ++ name) s) as [rest|] eqn:E;
    [|discriminate].
  destruct (stripPrefix_inv _ _ _ _ E) as (o & Hs & Ho).
  rewrite map_exact in Ho. subst o s.
  destruct (span isDigit rest) as [ds rest'] eqn:ES.
  destruct ds as [|dg ds]; [discriminate|].
  destruct (stripPrefix exact (str "%%%") rest') as [x|] eqn:E3;
    [|discriminate].
  destruct (stripPrefix_inv _ _ _ _ E3) as (o3 & Hs3 & Ho3).
  rewrite map_exact in Ho3. subst o3.
  rewrite (span_parts _ _ _ _ ES), Hs3.
  exists (name ++ dg :: ds), (str "%%" ++ x).
  rewrite <- !app_assoc. reflexivity.
Qed.

Lemma noPercent_app (a b : jsstring) :
  noPercent (a ++ b) = noPercent a && noPercent b.
Proof. apply forallb_app. Qed.

Lemma noPercent_split (x1 x2 : jsstring) (c : char) (s : jsstring) :
  noPercent s = true -> s = x1 ++ c :: x2 -> (c =? 37)%N = false.
Proof.
  intros H E. subst s. rewrite noPercent_app in H.
  apply andb_true_iff in H. destruct H as [_ H]. simpl in H.
  apply andb_true_iff in H. destruct H as [H _].
  apply negb_true_iff. exact H.
Qed.

Ltac rewrite_none H :=
  match goal with
  | |- context [matchToken ?n ?x] =>
      replace (matchToken n x) with (@None (nat * jsstring))
        by (symmetry; exact H)
  end.

Section RestoreFacts.

Variable name : jsstring.
Variable emit : nat -> jsstring -> jsstring.

Lemma matchToken_other (c : char) (s : jsstring) :
  (c =? 37)%N = false -> matchToken name (c :: s) = None.
Proof.
  intros H. unfold matchToken. simpl. unfold exact. rewrite H. reflexivity.
Qed.

Lemma restore_none (idx : nat) (s : jsstring) :
  noPercent s = true ->
  replaceFrom (matchToken name) emit idx 0 s = (s, []).
Proof.
  intros H. apply replaceFrom_none. intros x1 c x2 E.
  apply matchToken_other. exact (noPercent_split x1 x2 c s H E).
Qed.

Lemma restore_prefix (idx : nat) (u s : jsstring) :
  noPercent u = true ->
  replaceFrom (matchToken name) emit idx 0 (u ++ s) =
    (u ++ fst (replaceFrom (matchToken name) emit idx 0 s),
     snd (replaceFrom (matchToken name) emit idx 0 s)).
Proof.
  intros H. apply replaceFrom_copy. intros x1 c x2 E.
  apply matchToken_other. exact (noPercent_split x1 x2 c u H E).
Qed.

(** Percent signs before a text without percent sign begin no
    placeholder. *)
Lemma matchToken_tail (k : nat) (v : jsstring) :
  noPercent v = true ->
  k <= 3 ->
  matchToken name (repeat (37%N : char) k ++ v) = None.
Proof.
  intros Hv Hk.
  destruct (matchToken name (repeat (37%N : char) k ++ v)) as [r|] eqn:E;
    [exfalso|reflexivity].
  destruct (matchToken_closing _ _ _ E) as (a & b & Hs).
  assert (exists x y, v = x ++ 37%N :: y) as (x & y & Hxy).
  { destruct k as [|[|[|[|k]]]]; try lia; simpl in Hs.
    - exists (str "%%%" ++ a), b. rewrite Hs, <- app_assoc. reflexivity.
    - destruct v as [|c v]; [discriminate Hs|].
      injection Hs as Hc _. exists [], v. rewrite Hc. reflexivity.
    - destruct v as [|c v]; [discriminate Hs|].
      injection Hs as Hc _. exists [], v. rewrite Hc. reflexivity.
    - injection Hs as Hs. exists a, b. exact Hs. }
  pose proof (noPercent_split x y 37%N v Hv Hxy) as HC.
  simpl in HC. discriminate HC.
Qed.

Lemma restore_tail (idx : nat) (v : jsstring) :
  noPercent v = true ->
  replaceFrom (matchToken name) emit idx 0 (str "%%%" ++ v) =
    (str "%%%" ++ v, []).
Proof.
  intros Hv. change (str "%%%" ++ v) with (37%N :: 37%N :: 37%N :: v).
  pose proof (matchToken_tail 3 v Hv ltac:(lia)) as H3.
  pose proof (matchToken_tail 2 v Hv ltac:(lia)) as H2.
  pose proof (matchToken_tail 1 v Hv ltac:(lia)) as H1.
  cbn [repeat app] in H1, H2, H3.
  rewrite replaceFrom_scan. rewrite_none H3.
  rewrite replaceFrom_scan. rewrite_none H2.
  rewrite replaceFrom_scan. rewrite_none H1.
  rewrite (restore_none idx v Hv). reflexivity.
Qed.

End RestoreFacts.

Lemma restoreDisplay_one (tex u v : jsstring) :
  noPercent u = true ->
  noPercent v = true ->
  restoreDisplay [tex] (u ++ placeholder DoubleDollar ++ v) =
    u ++ (str "$$" ++ tex ++ str "$$") ++ v.
Proof.
  intros Hu Hv. unfold restoreDisplay, replaceAll.
  rewrite (restore_prefix _ _ 0 u _ Hu).
  change (placeholder DoubleDollar ++ v)
    with ((37%N :: str "%%DISPLAY0%%%") ++ v).
  rewrite (replaceFrom_match _ _ _ 0 37%N (str "%%DISPLAY0%%%") v (str "0"))
    by reflexivity.
  rewrite (restore_none _ _ 1 v Hv). reflexivity.
Qed.

Lemma restoreInline_one (tex u v : jsstring) :
  noPercent u = true ->
  noPercent v = true ->
  restoreInline [tex] (u ++ placeholder SingleDollar ++ v) =
    u ++ (str "\(" ++ tex ++ str "\)") ++ v.
Proof.
  intros Hu Hv. unfold restoreInline, replaceAll.
  rewrite (restore_prefix _ _ 0 u _ Hu).
  change (placeholder SingleDollar ++ v)
    with ((37%N :: str "%%INLINE0%%%") ++ v).
  rewrite (replaceFrom_match _ _ _ 0 37%N (str "%%INLINE0%%%") v (str "0"))
    by reflexivity.
  rewrite (restore_none _ _ 1 v Hv). reflexivity.
Qed.

Lemma restoreInline_none (table : list jsstring) (s : jsstring) :
  noPercent s = true -> restoreInline table s = s.
Proof.
  intros H. unfold restoreInline, replaceAll.
  rewrite (restore_none _ _ 0 s H). reflexivity.
Qed.

(** The display pass of the restoration leaves an inline placeholder
    alone. *)
Lemma restoreDisplay_inline (table : list jsstring) (u v : jsstring) :
  noPercent u = true ->
  noPercent v = true ->
  restoreDisplay table (u ++ placeholder SingleDollar ++ v) =
    u ++ placeholder SingleDollar ++ v.
Proof.
  intros Hu Hv. unfold restoreDisplay, replaceAll.
  rewrite (restore_prefix _ _ 0 u _ Hu).
  change (placeholder SingleDollar ++ v)
    with (str "%%%INLINE0" ++ str "%%%" ++ v).
  rewrite replaceFrom_copy.
  - rewrite (restore_tail _ _ 0 v Hv). reflexivity.
  - intros x1 c x2 E. cbn in E.
    do 10 (destruct x1 as [|? x1];
           [injection E as <- <-; reflexivity|injection E as _ E]).
    destruct x1; discriminate E.
Qed.

(* ===================================================================== *)
(** ** One math span in a plain context *)
(* ===================================================================== *)

Lemma plain_trimStart (s : jsstring) :
  plain s = true -> plain (trimStart s) = true.
Proof.
  intros H. destruct (trimStart_suffix s) as (x & E). rewrite E in H.
  unfold plain in *. rewrite forallb_app in H.
  apply andb_true_iff in H. tauto.
Qed.

Lemma plain_trimEnd (s : jsstring) :
  plain s = true -> plain (trimEnd s) = true.
Proof.
  intros H. destruct (trimEnd_prefix s) as (x & E). rewrite E in H.
  unfold plain in *. rewrite forallb_app in H.
  apply andb_true_iff in H. tauto.
Qed.

Lemma noPercent_trim (s : jsstring) :
  noPercent s = true -> noPercent (trim s) = true.
Proof.
  intros H. destruct (trim_infix s) as (x & y & E). rewrite E in H.
  rewrite !noPercent_app in H.
  apply andb_true_iff in H. destruct H as [_ H].
  apply andb_true_iff in H. tauto.
Qed.

Lemma notDollarNorLF_noDollar (t : jsstring) :
  forallb notDollarNorLF t = true -> noDollar t = true.
Proof.
  unfold noDollar. intros H. rewrite forallb_forall in *. intros c Hc.
  specialize (H c Hc). unfold notDollarNorLF in H.
  destruct (c =? 36)%N; [discriminate|reflexivity].
Qed.

Lemma formatMessage_masked (d : Deps) (parse : jsstring -> outcome)
  (text c1 c2 : jsstring) (dm im : list jsstring) :
  marked d = Some parse ->
  maskDisplay (stripThink text) = (c1, dm) ->
  maskInline c1 = (c2, im) ->
  formatMessage d text =
    Returns (restoreInline im
               (restoreDisplay dm
                  (tryCatch (parseAndSanitize d parse c2) c2))).
Proof.
  intros HM H1 H2. unfold formatMessage. rewrite HM, H1, H2. reflexivity.
Qed.

Ltac absent_by H :=
  match goal with
  | |- context [findSub ?n ?pat ?x] =>
      replace (findSub n pat x) with (@None (jsstring * jsstring))
        by (symmetry; exact H)
  end.

Ltac rewrite_findSub H :=
  match type of H with
  | _ = ?r =>
      match goal with
      | |- context [findSub ?n ?pat ?x] =>
          replace (findSub n pat x) with r by (symmetry; exact H)
      end
  end.

Lemma no_dollars_after_dollar (q : jsstring) :
  plain q = true -> findSub exact [36%N; 36%N] (36%N :: q) = None.
Proof.
  intros Hq.
  assert (HA : findSub exact [36%N; 36%N] q = None)
    by exact (findSub_absent exact 36%N [36%N] q (plain_noDollar q Hq)).
  rewrite findSub_unfold. cbv beta iota. rewrite HA.
  destruct q as [|x q]; [reflexivity|].
  simpl in Hq. apply andb_true_iff in Hq. destruct Hq as [Hx _].
  unfold plainChar in Hx. simpl. unfold exact.
  destruct (x =? 36)%N; [discriminate|reflexivity].
Qed.

Lemma plain_no_bracket (q : jsstring) :
  plain q = true -> hasSub exact (str "\[") q = false.
Proof.
  intros Hq. unfold hasSub.
  absent_by (findSub_absent exact 92%N [91%N] q (plain_noBackslash q Hq)).
  reflexivity.
Qed.

Lemma plain_no_dollars (q : jsstring) :
  plain q = true -> hasSub exact (str "$$") q = false.
Proof.
  intros Hq. unfold hasSub.
  absent_by (findSub_absent exact 36%N [36%N] q (plain_noDollar q Hq)).
  reflexivity.
Qed.

(** An inline span in a plain context opens no display span. *)
Lemma inline_dollar_no_display (p q t : jsstring) (c : char) :
  plain p = true ->
  plain q = true ->
  forallb notDollarNorLF (c :: t) = true ->
  hasSub exact (str "\[") (c :: t) = false ->
  hasSub exact (str "$$") (p ++ (str "$" ++ (c :: t) ++ str "$") ++ q)
    = false
  /\ hasSub exact (str "\[") (p ++ (str "$" ++ (c :: t) ++ str "$") ++ q)
     = false.
Proof.
  intros Hp Hq Ht Hb.
  pose proof (notDollarNorLF_noDollar _ Ht) as Hd.
  replace (p ++ (str "$" ++ (c :: t) ++ str "$") ++ q)
    with (p ++ [36%N] ++ (c :: t) ++ [36%N] ++ q) by (flat; reflexivity).
  split.
  - unfold hasSub.
    rewrite_findSub
      (findSub_skip exact 36%N [36%N] p ([36%N] ++ (c :: t) ++ [36%N] ++ q)
         (plain_noDollar p Hp)).
    rewrite_findSub
      (findSub_unfold exact [36%N; 36%N] (36%N :: (c :: t) ++ 36%N :: q)).
    cbv beta iota.
    rewrite_findSub
      (findSub_skip exact 36%N [36%N] (c :: t) (36%N :: q) Hd).
    rewrite_findSub (no_dollars_after_dollar q Hq).
    simpl in Hd. apply andb_true_iff in Hd. destruct Hd as [Hc _].
    simpl. unfold exact. apply negb_true_iff in Hc. rewrite Hc.
    reflexivity.
  - exact (hasSub_join exact (str "\[") [36%N] p [36%N]
             ((c :: t) ++ [36%N] ++ q) eq_refl eq_refl eq_refl
             (plain_no_bracket p Hp)
             (hasSub_join exact (str "\[") [36%N] (c :: t) [36%N] q
                eq_refl eq_refl eq_refl Hb (plain_no_bracket q Hq))).
Qed.

Lemma noDollar_no_dollars (s : jsstring) :
  noDollar s = true -> hasSub exact (str "$$") s = false.
Proof.
  intros H. unfold hasSub.
  absent_by (findSub_absent exact 36%N [36%N] s (noDollar_exact s H)).
  reflexivity.
Qed.

Lemma inline_paren_no_display (p q t : jsstring) :
  plain p = true ->
  plain q = true ->
  noDollar t = true ->
  hasSub exact (str "\[") t = false ->
  hasSub exact (str "$$") (p ++ (str "\(" ++ t ++ str "\)") ++ q) = false
  /\ hasSub exact (str "\[") (p ++ (str "\(" ++ t ++ str "\)") ++ q)
     = false.
Proof.
  intros Hp Hq Ht Hb. split.
  - apply noDollar_no_dollars. unfold noDollar in *.
    rewrite !forallb_app.
    repeat (apply andb_true_iff; split);
      try reflexivity; try assumption.
    + exact (plain_noDollar p Hp).
    + exact (plain_noDollar q Hq).
  - replace (p ++ (str "\(" ++ t ++ str "\)") ++ q)
      with (p ++ str "\(" ++ t ++ str "\)" ++ q) by (flat; reflexivity).
    exact (hasSub_join exact (str "\[") (str "\(") p (str "\(")
             (t ++ str "\)" ++ q) eq_refl eq_refl eq_refl
             (plain_no_bracket p Hp)
             (hasSub_join exact (str "\[") (str "\)") t (str "\)") q
                eq_refl eq_refl eq_refl Hb (plain_no_bracket q Hq))).
Qed.

Section SpanFacts.

Variable m : jsstring -> option (nat * jsstring).
Variable emit : nat -> jsstring -> jsstring.
Hypothesis m_plain :
  forall c s, plainChar c = true -> m (c :: s) = None.

Lemma mask_span (p q sp tex : jsstring) :
  plain p = true ->
  plain q = true ->
  sp <> [] ->
  m (sp ++ q) = Some (List.length sp, tex) ->
  replaceAll m emit (p ++ sp ++ q) = (p ++ emit 0 tex ++ q, [tex]).
Proof.
  intros Hp Hq Hs Hm. destruct sp as [|x sp]; [congruence|].
  exact (mask_one m emit m_plain p q x sp tex Hp Hq Hm).
Qed.

End SpanFacts.

Lemma plain_app (a b : jsstring) : plain (a ++ b) = plain a && plain b.
Proof. apply forallb_app. Qed.

(** A span with its delimiters, at the head of a text. *)
Lemma match_span (k : Delimiter) (t q : jsstring) :
  t <> [] ->
  encloses k t = true ->
  (if isDisplay k then matchDisplay else matchInline)
    ((opening k ++ t ++ closing k) ++ q) =
    Some (List.length (opening k ++ t ++ closing k), trim t).
Proof.
  intros Ht He. destruct t as [|c t]; [congruence|].
  replace ((opening k ++ (c :: t) ++ closing k) ++ q)
    with (opening k ++ (c :: t) ++ closing k ++ q) by (flat; reflexivity).
  destruct k; cbn [isDisplay opening closing encloses] in *.
  - exact (matchDisplay_dollars c t q He).
  - apply negb_true_iff in He. exact (matchDisplay_brackets c t q He).
  - apply andb_true_iff in He. destruct He as [He _].
    exact (matchInline_dollars c t q He).
  - apply andb_true_iff in He. destruct He as [_ He].
    apply negb_true_iff in He. exact (matchInline_parens c t q He).
Qed.

(** The span delimiters are not white space: trimming stops at them. *)
Lemma trim_span (k : Delimiter) (p t q : jsstring) :
  trim (p ++ (opening k ++ t ++ closing k) ++ q) =
    trimStart p ++ (opening k ++ t ++ closing k) ++ trimEnd q.
Proof.
  destruct k; cbn [opening closing].
  - replace (str "$$" ++ t ++ str "$$")
      with (36%N :: (36%N :: t ++ [36%N]) ++ [36%N])
      by (simpl; flat; reflexivity).
    apply trim_around; reflexivity.
  - replace (str "\[" ++ t ++ str "\]")
      with (92%N :: (91%N :: t ++ [92%N]) ++ [93%N])
      by (simpl; flat; reflexivity).
    apply trim_around; reflexivity.
  - replace (str "$" ++ t ++ str "$") with (36%N :: t ++ [36%N])
      by reflexivity.
    apply trim_around; reflexivity.
  - replace (str "\(" ++ t ++ str "\)")
      with (92%N :: (40%N :: t ++ [92%N]) ++ [41%N])
      by (simpl; flat; reflexivity).
    apply trim_around; reflexivity.
Qed.

(** An inline span opens no display span. *)
Lemma inline_no_display (k : Delimiter) (p t q : jsstring) :
  isDisplay k = false ->
  plain p = true ->
  plain q = true ->
  t <> [] ->
  encloses k t = true ->
  maskDisplay (p ++ (opening k ++ t ++ closing k) ++ q) =
    (p ++ (opening k ++ t ++ closing k) ++ q, []).
Proof.
  intros Hk Hp Hq Ht He. destruct t as [|c t]; [congruence|].
  destruct k; try discriminate Hk; cbn [opening closing encloses] in *.
  - apply andb_true_iff in He. destruct He as [H1 H2].
    apply negb_true_iff in H2.
    destruct (inline_dollar_no_display p q t c Hp Hq H1 H2) as [A B].
    exact (maskDisplay_none _ A B).
  - apply andb_true_iff in He. destruct He as [He _].
    apply andb_true_iff in He. destruct He as [H1 H2].
    apply negb_true_iff in H2.
    destruct (inline_paren_no_display p q (c :: t) Hp Hq H1 H2) as [A B].
    exact (maskDisplay_none _ A B).
Qed.

(** Masking of one span in a plain context: the placeholder takes its
    place and the table holds its trimmed source. *)
Lemma mask_both (k : Delimiter) (p t q : jsstring) :
  plain p = true ->
  plain q = true ->
  t <> [] ->
  encloses k t = true ->
  let '(c1, dm) := maskDisplay (p ++ (opening k ++ t ++ closing k) ++ q) in
  let '(c2, im) := maskInline c1 in
  c2 = p ++ placeholder k ++ q
  /\ dm = (if isDisplay k then [trim t] else [])
  /\ im = (if isDisplay k then [] else [trim t]).
Proof.
  intros Hp Hq Ht He.
  assert (Hs : opening k ++ t ++ closing k <> [])
    by (destruct k; discriminate).
  destruct (isDisplay k) eqn:Hk.
  - unfold maskDisplay.
    pose proof (match_span k t q Ht He) as Hm. rewrite Hk in Hm.
    rewrite (mask_span matchDisplay displayToken matchDisplay_plain
               p q _ (trim t) Hp Hq Hs Hm).
    unfold maskInline, replaceAll.
    rewrite (mask_plain matchInline inlineToken matchInline_plain 0).
    + unfold placeholder. rewrite Hk. repeat split.
    + rewrite !plain_app, Hp, Hq. reflexivity.
  - rewrite (inline_no_display k p t q Hk Hp Hq Ht He).
    unfold maskInline.
    pose proof (match_span k t q Ht He) as Hm. rewrite Hk in Hm.
    rewrite (mask_span matchInline inlineToken matchInline_plain
               p q _ (trim t) Hp Hq Hs Hm).
    unfold placeholder. rewrite Hk. repeat split.
Qed.

(** Restoration of the placeholder of one span. *)
Lemma restore_both (k : Delimiter) (tex u v : jsstring) :
  noPercent tex = true ->
  noPercent u = true ->
  noPercent v = true ->
  restoreInline (if isDisplay k then [] else [tex])
    (restoreDisplay (if isDisplay k then [tex] else [])
       (u ++ placeholder k ++ v)) =
    u ++ rewrapped k tex ++ v.
Proof.
  intros Ht Hu Hv. unfold rewrapped.
  destruct (isDisplay k) eqn:Hk.
  - replace (placeholder k) with (placeholder DoubleDollar)
      by (unfold placeholder; rewrite Hk; reflexivity).
    rewrite (restoreDisplay_one tex u v Hu Hv).
    apply restoreInline_none.
    rewrite !noPercent_app, Hu, Hv, Ht. reflexivity.
  - replace (placeholder k) with (placeholder SingleDollar)
      by (unfold placeholder; rewrite Hk; reflexivity).
    rewrite (restoreDisplay_inline [] u v Hu Hv).
    exact (restoreInline_one tex u v Hu Hv).
Qed.

(** One math span between two texts that hold neither a dollar sign nor
    a backslash, in a message without reasoning start tag: when the TeX
    source is not empty, is enclosed as one span ([encloses]) and holds no
    percent sign, and the markup made from the masked text still holds the
    placeholder, between two texts without percent sign, then
    [formatMessage] returns that markup with the placeholder replaced by
    the trimmed TeX source, wrapped in double dollars for a display span
    of either spelling and in backslash-parentheses for an inline span of
    either spelling. *)
Lemma math_round_trip (d : Deps) (parse : jsstring -> outcome)
  (k : Delimiter) (p t q u v : jsstring) :
  marked d = Some parse ->
  plain p = true ->
  plain q = true ->
  t <> [] ->
  encloses k t = true ->
  noPercent t = true ->
  hasSub canonicalize Tags.rawOpen
    (p ++ (opening k ++ t ++ closing k) ++ q) = false ->
  hasSub canonicalize Tags.escOpen
    (p ++ (opening k ++ t ++ closing k) ++ q) = false ->
  noPercent u = true ->
  noPercent v = true ->
  tryCatch
    (parseAndSanitize d parse (trimStart p ++ placeholder k ++ trimEnd q))
    (trimStart p ++ placeholder k ++ trimEnd q) = u ++ placeholder k ++ v ->
  formatMessage d (p ++ (opening k ++ t ++ closing k) ++ q) =
    Returns (u ++ rewrapped k (trim t) ++ v).
Proof.
  intros HM Hp Hq Ht He Hn HR HX Hu Hv Hparse.
  pose proof (mask_both k (trimStart p) t (trimEnd q)
                (plain_trimStart p Hp) (plain_trimEnd q Hq) Ht He) as HB.
  rewrite <- trim_span, <- (stripThink_clean _ HR HX) in HB.
  destruct (maskDisplay (stripThink _)) as [c1 dm] eqn:H1.
  destruct (maskInline c1) as [c2 im] eqn:H2.
  destruct HB as (-> & -> & ->).
  rewrite (formatMessage_masked d parse _ c1 _ _ _ HM H1 H2).
  rewrite Hparse.
  rewrite (restore_both k (trim t) u v (noPercent_trim t Hn) Hu Hv).
  reflexivity.
Qed.

(* ===================================================================== *)
(** ** Reasoning sections *)
(* ===================================================================== *)



(* ===================================================================== *)
(** ** Formatting errors *)
(* ===================================================================== *)








Section LoneFacts.

Variable m : jsstring -> option (nat * jsstring).
Variable emit : nat -> jsstring -> jsstring.
Hypothesis m_plain :
  forall c s, plainChar c = true -> m (c :: s) = None.


End LoneFacts.








(* ===================================================================== *)
(** ** Runs of the streaming loop *)
(* ===================================================================== *)

Section LoopFacts.

Variable d : Deps.
Variable layout : list Node -> Z.

Lemma onChunk_next (l : nat) (r : Read) (L : Loop) (p : Page) (b : nat) :
  isFirstMsg L = false ->
  aiBubble L = Some b ->
  let html := formatted d (accumulatedText L ++ chunk r) in
  let v := withHtml b html (view p) in
  onChunk d layout l r L p =
    ({| conversationHistory := conversationHistory p;
        view := v;
        viewport := relaid layout v (seen r) (isAtBottom (seen r));
        nextId := nextId p;
        log := log p ++ [EvRender html] |},
     Some {| accumulatedText := accumulatedText L ++ chunk r;
             rawAiResponse := rawAiResponse L ++ chunk r;
             isFirstMsg := false;
             aiBubble := Some b;
             shouldAutoScroll := isAtBottom (seen r) |}).
Proof.
  intros HF HB. unfold onChunk, bind, observe, modify. simpl.
  rewrite HF, HB. unfold ret at 1. simpl.
  rewrite callFormat_run. unfold setInnerHTML, setView, emitEvent, modify.
  simpl. unfold relaid, scrollToBottom, modify, ret.
  destruct (isAtBottom (seen r)); reflexivity.
Qed.

Lemma onChunk_first (l : nat) (r : Read) (L : Loop) (p : Page) :
  isFirstMsg L = true ->
  let html := formatted d (accumulatedText L ++ chunk r) in
  let n := nextId p in
  let v := withHtml n html
             ((if attached l p then without l (view p) else view p)
                ++ [Message n TAi (InnerHTML (formatted d []))]) in
  onChunk d layout l r L p =
    ({| conversationHistory := conversationHistory p;
        view := v;
        viewport := relaid layout v (seen r) true;
        nextId := S n;
        log := (log p ++ typesetEvents d) ++ [EvRender html] |},
     Some {| accumulatedText := accumulatedText L ++ chunk r;
             rawAiResponse := rawAiResponse L ++ chunk r;
             isFirstMsg := false;
             aiBubble := Some n;
             shouldAutoScroll := true |}).
Proof.
  intros HF. unfold onChunk, bind, observe, modify. simpl.
  rewrite HF. unfold attached at 1. simpl.
  unfold addMessage, bind, createElement, typeset, typesetEvents.
  destruct (existsb _ (view p)) eqn:HA;
    unfold attached; rewrite HA;
    unfold removeChild, setView, modify, ret; simpl;
    rewrite !callFormat_run;
    destruct (MathJax d);
    unfold emitEvent, appendChild, setView, scrollToBottom, setInnerHTML,
      setView, modify, ret, relaid; simpl;
    rewrite ?callFormat_run; simpl; rewrite ?app_nil_r; reflexivity.
Qed.

Lemma withHtml_twice (b : nat) (h1 h2 : jsstring) (v : list Node) :
  withHtml b h2 (withHtml b h1 v) = withHtml b h2 v.
Proof.
  unfold withHtml. rewrite map_map. apply map_ext. intros [i t body|i].
  - destruct (Nat.eqb i b) eqn:E; simpl; rewrite E; reflexivity.
  - reflexivity.
Qed.

Lemma received_cons (r : Read) (rs : list Read) :
  received (r :: rs) = chunk r ++ received rs.
Proof. reflexivity. Qed.

Lemma received_app (rs1 rs2 : list Read) :
  received (rs1 ++ rs2) = received rs1 ++ received rs2.
Proof. unfold received. rewrite map_app, concat_app. reflexivity. Qed.

(** The loop once the bubble exists: it re-renders the bubble from the
    grown buffer and touches nothing else. *)
Lemma onChunks_streaming (l b : nat) (rs : list Read) :
  forall (L : Loop) (p : Page),
    isFirstMsg L = false ->
    aiBubble L = Some b ->
    exists p' L',
      onChunks d layout l rs L p = (p', Some L')
      /\ conversationHistory p' = conversationHistory p
      /\ nextId p' = nextId p
      /\ log p' = log p ++ renders d (accumulatedText L) rs
      /\ view p' =
           match rs with
           | [] => view p
           | _ :: _ =>
               withHtml b (formatted d (accumulatedText L ++ received rs))
                 (view p)
           end
      /\ accumulatedText L' = accumulatedText L ++ received rs
      /\ rawAiResponse L' = rawAiResponse L ++ received rs
      /\ isFirstMsg L' = false
      /\ aiBubble L' = Some b.
Proof.
  induction rs as [|r rs IH]; intros L p HF HB.
  - exists p, L. simpl. unfold received. simpl. rewrite !app_nil_r.
    repeat split; auto.
  - simpl. unfold bind at 1.
    rewrite (onChunk_next l r L p b HF HB).
    match goal with
    | |- context [onChunks _ _ _ _ ?L1 ?p1] =>
        destruct (IH L1 p1 eq_refl eq_refl)
          as (p' & L' & HR & HH & HN & HL & HV & HA & HW & HF' & HB')
    end.
    exists p', L'. simpl in *.
    rewrite HR, HH, HN, HL, HA, HW, received_cons, <- !app_assoc.
    repeat split; auto.
    rewrite HV. destruct rs as [|r' rs'].
    + unfold received. simpl. rewrite app_nil_r. reflexivity.
    + rewrite withHtml_twice, <- ?app_assoc. reflexivity.
Qed.

(** The whole run of the reads that carry data, from the start of the
    loop. *)
Lemma onChunks_start (l : nat) (rs : list Read) (p : Page) :
  exists p' L',
    onChunks d layout l rs loopStart p = (p', Some L')
    /\ conversationHistory p' = conversationHistory p
    /\ log p' =
         log p ++ match rs with
                  | [] => []
                  | _ :: _ => typesetEvents d ++ renders d [] rs
                  end
    /\ view p' =
         match rs with
         | [] => view p
         | _ :: _ => streamedView d l (nextId p) (received rs) p
         end
    /\ nextId p' = match rs with [] => nextId p | _ => S (nextId p) end
    /\ accumulatedText L' = received rs
    /\ rawAiResponse L' = received rs
    /\ isFirstMsg L' = match rs with [] => true | _ => false end
    /\ aiBubble L' = match rs with [] => None | _ => Some (nextId p) end.
Proof.
  destruct rs as [|r rs].
  - exists p, loopStart. simpl. rewrite app_nil_r. repeat split; auto.
  - simpl. unfold bind at 1.
    rewrite (onChunk_first l r loopStart p eq_refl).
    match goal with
    | |- context [onChunks _ _ _ _ ?L1 ?p1] =>
        destruct (onChunks_streaming l (nextId p) rs L1 p1 eq_refl eq_refl)
          as (p' & L' & HR & HH & HN & HL & HV & HA & HW & HF' & HB')
    end.
    exists p', L'. simpl in *.
    rewrite HR, HH, HN, HL, HA, HW, received_cons, <- !app_assoc.
    repeat split; auto.
    rewrite HV. unfold streamedView. destruct rs as [|r' rs'].
    + unfold received. simpl. rewrite app_nil_r. reflexivity.
    + rewrite withHtml_twice, <- ?app_assoc. reflexivity.
Qed.

End LoopFacts.

(* ===================================================================== *)
(** ** Runs of sendMessage *)
(* ===================================================================== *)

Section TurnFacts.

Variable d : Deps.
Variable layout : list Node -> Z.

Lemma sendMessage_submit (value : jsstring) (net : Net) (p : Page)
  (c : char) (t : jsstring) :
  trim value = c :: t ->
  sendMessage d layout value net p =
    tryCatchM (tryBlock d layout (S (nextId p)) net)
      (catchBlock d layout (S (nextId p))) (submitted d layout p (c :: t)).
Proof.
  intros HT. unfold sendMessage. rewrite HT.
  unfold bind, addMessage, bind, createElement, ret, appendChild, setView,
    pushTurn, saveHistory, scrollToBottom, modify, submitted, saveEvents,
    userTurn, relaid.
  simpl. destruct (electronAPI d); unfold emitEvent, modify, ret; simpl;
    rewrite ?app_nil_r; reflexivity.
Qed.

Lemma catchBlock_run (l : nat) (p : Page) :
  exists p',
    catchBlock d layout l p = (p', Some tt)
    /\ conversationHistory p' = conversationHistory p
    /\ log p' = log p ++ typesetEvents d
    /\ view p' =
         (if attached l p then without l (view p) else view p)
           ++ [Message (nextId p) TSystem
                 (InnerHTML (formatted d errorText))].
Proof.
  unfold catchBlock, bind, addMessage, bind, createElement, typeset,
    typesetEvents.
  destruct (attached l p);
    unfold removeChild, setView, modify, ret; simpl;
    rewrite callFormat_run; destruct (MathJax d);
    unfold emitEvent, appendChild, setView, scrollToBottom, modify, ret;
    simpl; eexists; repeat split; simpl; rewrite ?app_nil_r; reflexivity.
Qed.

(** The [try] block when the stream is read to its end. *)
Lemma tryBlock_completes (l : nat) (rs : list Read) (vp : Viewport)
  (p : Page) :
  exists p',
    tryBlock d layout l (Stream rs (Done vp)) p = (p', Some tt)
    /\ conversationHistory p' =
         conversationHistory p ++ [assistantTurn (received rs)]
    /\ log p' =
         log p ++ EvFetch (conversationHistory p)
           
:: streamEvents d rs ++ typesetEvents d
           ++ EvPush (assistantTurn (received rs))
           :: saveEvents d
                (conversationHistory p ++ [assistantTurn (received rs)])
    /\ view p' =
         match rs with
         | [] => view p
         | _ :: _ => streamedView d l (nextId p) (received rs) p
         end.
Proof.
  unfold tryBlock, bind at 1. simpl. unfold bind at 1. simpl.
  unfold streamLoop.
  match goal with
  | |- context [bind _ _ ?p1 = _] =>
      destruct (onChunks_start d layout l rs p1)
        as (p' & L' & HR & HH & HL & HV & HN & HA & HW & HF & HB)
  end.
  unfold bind at 1. unfold bind at 1. rewrite HR. simpl in *.
  unfold typeset, typesetEvents, pushTurn, saveHistory, saveEvents,
    assistantTurn, bind, observe, modify, ret. simpl.
  destruct (MathJax d), (electronAPI d);
    unfold emitEvent, modify, ret; simpl;
    eexists; (split; [reflexivity|]); simpl;
    rewrite HH, HL, HW, HV;
    (split; [reflexivity|]);
    (split; [| destruct rs; reflexivity]);
    unfold streamEvents; destruct rs; simpl;
    rewrite <- ?app_assoc; simpl; rewrite ?app_nil_r; reflexivity.
Qed.

(** The [try] block when the transport fails: the exception reaches the
    [catch]. *)
Lemma tryBlock_fails (l : nat) (net : Net) (rs : list Read) (p : Page) :
  readsBeforeFailure net = Some rs ->
  exists p',
    tryBlock d layout l net p = (p', None)
    /\ conversationHistory p' = conversationHistory p
    /\ log p' = log p ++ EvFetch (conversationHistory p) 
:: streamEvents d rs
    /\ view p' =
         match rs with
         | [] => view p
         | _ :: _ => streamedView d l (nextId p) (received rs) p
         end
    /\ nextId p' = match rs with [] => nextId p | _ => S (nextId p) end.
Proof.
  intros HN.
  destruct net as [| |rs' [vp|]]; simpl in HN; inversion HN; subst.
  - eexists. split; [reflexivity|]. simpl. repeat split; reflexivity.
  - eexists. split; [reflexivity|]. simpl. repeat split; reflexivity.
  - unfold tryBlock, bind at 1. simpl. unfold bind at 1. simpl.
    unfold streamLoop.
    match goal with
    | |- context [bind _ _ ?p1 = _] =>
        destruct (onChunks_start d layout l rs p1)
          as (p' & L' & HR & HH & HL & HV & HN' & HA & HW & HF & HB)
    end.
    unfold bind at 1. unfold bind at 1. rewrite HR. simpl in *.
    exists p'. split; [reflexivity|].
    rewrite HH, HL, HV, HN'. unfold streamEvents.
    repeat split; destruct rs; simpl; rewrite <- ?app_assoc; reflexivity.
Qed.

End TurnFacts.



Section TurnTheorems.

Variable d : Deps.
Variable layout : list Node -> Z.

Lemma onChunks_app (l : nat) (rs1 rs2 : list Read) :
  forall (L : Loop) (p : Page),
    onChunks d layout l (rs1 ++ rs2) L p =
      bind (onChunks d layout l rs1 L) (onChunks d layout l rs2) p.
Proof.
  induction rs1 as [|r rs1 IH]; intros L p.
  - reflexivity.
  - simpl. unfold bind.
    destruct (onChunk d layout l r L p) as [p1 [L1|]]; [|reflexivity].
    rewrite IH. reflexivity.
Qed.

Lemma renders_no_push (acc : jsstring) (rs : list Read) :
  existsb isPush (renders d acc rs) = false.
Proof.
  revert acc. induction rs as [|r rs IH]; intros acc; simpl; auto.
Qed.

Lemma stream_events_no_push (rs : list Read) :
  existsb isPush (streamEvents d rs ++ typesetEvents d) = false.
Proof.
  rewrite existsb_app. unfold streamEvents, typesetEvents.
  destruct rs; destruct (MathJax d); simpl; rewrite ?renders_no_push;
    reflexivity.
Qed.

Lemma withHtml_In (b : nat) (html : jsstring) (t : MsgType) (body : Body)
  (v1 v2 : list Node) :
  In (Message b t (InnerHTML html))
    (withHtml b html (v1 ++ Message b t body :: v2)).
Proof.
  unfold withHtml. rewrite map_app. apply in_or_app. right. simpl.
  rewrite Nat.eqb_refl. left. reflexivity.
Qed.

(** C1 (chunk-boundary insensitivity).  For every string [whole] and every
    sequence of reads whose chunks concatenate to it, the streaming loop
    runs to the end of the stream, the accumulated buffer and the raw
    response are [whole], and as soon as one read carried data the assistant
    bubble shows [formatMessage whole]: the rendered markup depends on the
    string alone, not on where the chunks were cut (nor on the geometry
    seen at the reads). *)
Theorem final_render_ignores_chunking (l : nat) (rs : list Read)
  (vp : Viewport) (p : Page) (whole : jsstring) :
  received rs = whole ->
  exists p' L',
    streamLoop d layout l rs (Done vp) p = (p', Some L')
    /\ accumulatedText L' = whole
    /\ rawAiResponse L' = whole
    /\ formatMessage d (accumulatedText L') = formatMessage d whole
    /\ match aiBubble L' with
       | Some b =>
           In (Message b TAi (InnerHTML (formatted d whole))) (view p')
       | None => rs = []
       end.
Proof.
  intros HS. unfold streamLoop, bind at 1.
  destruct (onChunks_start d layout l rs p)
    as (p1 & L1 & HR & HH & HL & HV & HN & HA & HW & HF & HB).
  rewrite HR. unfold bind, observe, modify, ret. simpl.
  eexists. eexists. split; [reflexivity|]. simpl.
  rewrite HA, HW, HB, HS. repeat split.
  destruct rs as [|r rs']; [reflexivity|].
  rewrite HV, HS. unfold streamedView. apply withHtml_In.
Qed.

(** C5 (scroll policy).  After any read that carries data the value of
    [shouldAutoScroll] is [true] when the read is the first of the response,
    whatever the distance from the bottom, and otherwise is
    [scrollHeight - scrollTop - clientHeight < 50] on the geometry seen when
    the read resolved, before the chunk is rendered; the view is scrolled to
    the bottom of the re-laid-out content exactly when the value is true. *)
Theorem autoscroll_decision (l : nat) (rs : list Read) (r : Read) (p : Page) :
  exists p' L',
    onChunks d layout l (rs ++ [r]) loopStart p = (p', Some L')
    /\ shouldAutoScroll L' =
         match rs with
         | [] => true
         | _ :: _ =>
             (scrollHeight (seen r) - scrollTop (seen r)
                - clientHeight (seen r) <? 50)%Z
         end
    /\ viewport p' = relaid layout (view p') (seen r) (shouldAutoScroll L').
Proof.
  rewrite onChunks_app. unfold bind.
  destruct (onChunks_start d layout l rs p)
    as (p1 & L1 & HR & HH & HL & HV & HN & HA & HW & HF & HB).
  rewrite HR. simpl. unfold bind.
  destruct rs as [|r0 rs'].
  - rewrite (onChunk_first d layout l r L1 p1 HF). unfold ret.
    eexists. eexists. split; [reflexivity|]. simpl. split; reflexivity.
  - rewrite (onChunk_next d layout l r L1 p1 _ HF HB). unfold ret.
    eexists. eexists. split; [reflexivity|]. simpl. split; reflexivity.
Qed.

(** C6 (ordering of the transcript writes).  A submission with text (the
    trimmed value of the input box, not empty) pushes the user's turn first;
    the request is then dispatched with a transcript that already ends in
    that turn.  When the stream is read to its end, the only later push is
    the assistant's turn, after every rendering of the stream, and its
    content is the whole received text.  When the transport fails nothing
    more is pushed. *)
Theorem transcript_write_order (value text : jsstring) (net : Net) (p : Page) :
  trim value = text ->
  text <> [] ->
  let H := conversationHistory p in
  let u := userTurn text in
  let p' := fst (sendMessage d layout value net p) in
  match net with
  | Stream rs (Done _) =>
      let a := assistantTurn (received rs) in
      conversationHistory p' = H ++ [u; a]
      /\ log p' =
           log p ++ [EvPush u] ++ saveEvents d (H ++ [u])
             ++ [EvFetch (H ++ [u])]
             ++ (streamEvents d rs ++ typesetEvents d)
             ++ [EvPush a] ++ saveEvents d (H ++ [u; a])
      /\ existsb isPush (streamEvents d rs ++ typesetEvents d) = false
  | _ =>
      conversationHistory p' = H ++ [u]
      /\ exists rest,
           log p' =
             log p ++ [EvPush u] ++ saveEvents d (H ++ [u])
               ++ [EvFetch (H ++ [u])] ++ rest
           /\ existsb isPush rest = false
  end.
Proof.
  intros HT HNE H u p'. subst p'.
  destruct text as [|c t]; [congruence|].
  rewrite (sendMessage_submit d layout value net p c t HT). unfold tryCatchM.
  destruct (readsBeforeFailure net) as [rs|] eqn:HF.
  - destruct (tryBlock_fails d layout (S (nextId p)) net
                rs (submitted d layout p (c :: t)) HF)
      as (p1 & HR & HH & HL & _).
    rewrite HR.
    destruct (catchBlock_run d layout (S (nextId p)) p1)
      as (p2 & HR2 & HH2 & HL2 & _).
    rewrite HR2. simpl.
    assert (conversationHistory p2 = H ++ [u]
            /\ exists rest,
                 log p2 =
                   log p ++ [EvPush u] ++ saveEvents d (H ++ [u])
                     ++ [EvFetch (H ++ [u])] ++ rest
                 /\ existsb isPush rest = false) as HG.
    { split; [rewrite HH2, HH; reflexivity|].
      exists (streamEvents d rs ++ typesetEvents d). split.
      - rewrite HL2, HL. simpl. rewrite <- !app_assoc. reflexivity.
      - apply stream_events_no_push. }
    destruct net as [| |rs' [vp|]]; try exact HG. discriminate HF.
  - destruct net as [| |rs [vp|]]; try discriminate HF.
    destruct (tryBlock_completes d layout (S (nextId p)) rs vp
                (submitted d layout p (c :: t)))
      as (p1 & HR & HH & HL & _).
    rewrite HR. simpl. rewrite HH, HL. simpl.
    repeat split.
    + rewrite <- app_assoc. reflexivity.
    + subst H u. rewrite <- !app_assoc. simpl. rewrite <- ?app_assoc.
      reflexivity.
    + apply stream_events_no_push.
Qed.

Lemma fresh_not_attached (k l : nat) (v : list Node) :
  Forall (fun n => nodeId n < k) v -> k <= l ->
  existsb (fun n => Nat.eqb (nodeId n) l) v = false.
Proof.
  intros HW HL. induction HW as [|x v Hx _ IH]; [reflexivity|].
  simpl. rewrite IH. replace (Nat.eqb (nodeId x) l) with false; [reflexivity|].
  symmetry. apply Nat.eqb_neq. lia.
Qed.

Lemma without_fresh (k l : nat) (v : list Node) :
  Forall (fun n => nodeId n < k) v -> k <= l -> without l v = v.
Proof.
  intros HW HL. induction HW as [|x v Hx _ IH]; [reflexivity|].
  unfold without in *. simpl. rewrite IH.
  replace (Nat.eqb (nodeId x) l) with false; [reflexivity|].
  symmetry. apply Nat.eqb_neq. lia.
Qed.

Lemma withHtml_fresh (k b : nat) (html : jsstring) (v : list Node) :
  Forall (fun n => nodeId n < k) v -> k <= b -> withHtml b html v = v.
Proof.
  intros HW HL. induction HW as [|x v Hx _ IH]; [reflexivity|].
  unfold withHtml in *. simpl. rewrite IH. destruct x as [i t body|i].
  - simpl in Hx. replace (Nat.eqb i b) with false; [reflexivity|].
    symmetry. apply Nat.eqb_neq. lia.
  - reflexivity.
Qed.

Ltac decide_ids :=
  repeat match goal with
    | |- context [Nat.eqb ?a ?b] =>
        first
          [ replace (Nat.eqb a b) with false
              by (symmetry; apply Nat.eqb_neq; lia)
          | replace (Nat.eqb a b) with true
              by (symmetry; apply Nat.eqb_eq; lia) ]
    end.

(** The loading placeholder of a submission on a well-formed page is
    attached, and removing it leaves the earlier children and the user's
    bubble. *)
Lemma submitted_placeholder (p : Page) (text : jsstring) :
  wfPage p ->
  attached (S (nextId p)) (submitted d layout p text) = true
  /\ without (S (nextId p)) (view (submitted d layout p text)) =
       view p ++ [Message (nextId p) TUser (TextContent text)].
Proof.
  intros HW. unfold attached, submitted, without. simpl.
  rewrite !existsb_app, !filter_app. simpl.
  rewrite Nat.eqb_refl, !orb_true_r. split; [reflexivity|].
  fold (without (S (nextId p)) (view p)).
  rewrite (without_fresh (nextId p) _ _ HW) by lia.
  decide_ids. cbn [negb app]. rewrite app_nil_r. reflexivity.
Qed.

(** The view once the first chunk of the response to a submission on a
    well-formed page has been rendered. *)
Lemma submitted_streamed (p : Page) (text buf : jsstring) :
  wfPage p ->
  streamedView d (S (nextId p)) (S (S (nextId p))) buf
    (submitted d layout p text) =
  view p ++ [Message (nextId p) TUser (TextContent text);
             Message (S (S (nextId p))) TAi (InnerHTML (formatted d buf))].
Proof.
  intros HW. unfold streamedView.
  destruct (submitted_placeholder p text HW) as [HA HV].
  rewrite HA, HV. unfold withHtml. rewrite !map_app.
  fold (withHtml (S (S (nextId p))) (formatted d buf) (view p)).
  rewrite (withHtml_fresh (nextId p) _ _ _ HW) by lia.
  cbn [map]. decide_ids. rewrite <- app_assoc. reflexivity.
Qed.

(** C7, as the code has it.  When the stream ends without a read that
    carried data, no assistant bubble is created (the view gains the user's
    bubble and the loading placeholder only), and the transcript gains the
    user's turn followed by one assistant turn whose content is the empty
    string; no system turn is added. *)
Theorem empty_stream_turn (value text : jsstring) (vp : Viewport) (p : Page) :
  trim value = text ->
  text <> [] ->
  let p' := fst (sendMessage d layout value (Stream [] (Done vp)) p) in
  conversationHistory p' =
    conversationHistory p ++ [userTurn text; assistantTurn []]
  /\ view p' =
       view p ++ [Message (nextId p) TUser (TextContent text);
                  LoadingDiv (S (nextId p))].
Proof.
  intros HT HNE p'. subst p'.
  destruct text as [|c t]; [congruence|].
  rewrite (sendMessage_submit d layout value _ p c t HT). unfold tryCatchM.
  destruct (tryBlock_completes d layout (S (nextId p)) [] vp
              (submitted d layout p (c :: t)))
    as (p1 & HR & HH & HL & HV).
  rewrite HR. simpl. rewrite HH, HV. simpl.
  rewrite <- !app_assoc. split; reflexivity.
Qed.

(** C8 (amended).  When the request fails, the status is not a success,
    or a read rejects, on a page with fresh element identities: the
    loading placeholder of the turn is not in the view afterwards; the
    assistant bubble, when a read had carried data and made it, stays in
    the view with the text received so far; the view has gained the
    user's bubble, that assistant bubble if there is one, and exactly one
    system message, the formatted error text, at its end; the transcript
    has gained the user's turn and nothing else. *)
Theorem transport_failure_recovery (value text : jsstring) (net : Net)
  (rs : list Read) (p : Page) :
  wfPage p ->
  trim value = text ->
  text <> [] ->
  readsBeforeFailure net = Some rs ->
  let n := nextId p in
  let p' := fst (sendMessage d layout value net p) in
  attached (S n) p' = false
  /\ view p' =
       view p ++ [Message n TUser (TextContent text)]
         ++ match rs with
            | [] => []
            | _ :: _ =>
                [Message (S (S n)) TAi (InnerHTML (formatted d (received rs)))]
            end
         ++ [Message (match rs with [] => S (S n) | _ => S (S (S n)) end)
               TSystem (InnerHTML (formatted d errorText))]
  /\ conversationHistory p' = conversationHistory p ++ [userTurn text].
Proof.
  intros HW HT HNE HF n p'. subst p' n.
  destruct text as [|c t]; [congruence|].
  rewrite (sendMessage_submit d layout value net p c t HT). unfold tryCatchM.
  destruct (tryBlock_fails d layout (S (nextId p)) net rs
              (submitted d layout p (c :: t)) HF)
    as (p1 & HR & HH & HL & HV & HN).
  rewrite HR.
  destruct (catchBlock_run d layout (S (nextId p)) p1)
    as (p2 & HR2 & HH2 & HL2 & HV2).
  rewrite HR2. simpl.
  destruct (submitted_placeholder p (c :: t) HW) as [HA HO].
  assert (view p2 =
          view p ++ [Message (nextId p) TUser (TextContent (c :: t))]
            ++ match rs with
               | [] => []
               | _ :: _ =>
                   [Message (S (S (nextId p))) TAi
                      (InnerHTML (formatted d (received rs)))]
               end
            ++ [Message
                  (match rs with
                   | [] => S (S (nextId p))
                   | _ => S (S (S (nextId p)))
                   end)
                  TSystem (InnerHTML (formatted d errorText))]) as HView.
  { rewrite HV2, HN. destruct rs as [|r rs'].
    - unfold attached. rewrite HV. fold (attached (S (nextId p))
        (submitted d layout p (c :: t))).
      rewrite HA, HO. simpl. rewrite <- ?app_assoc. reflexivity.
    - unfold attached. rewrite HV.
      change (nextId (submitted d layout p (c :: t)))
        with (S (S (nextId p))).
      rewrite (submitted_streamed p (c :: t) _ HW).
      rewrite existsb_app, (fresh_not_attached (nextId p) _ _ HW) by lia.
      cbn [existsb nodeId]. decide_ids. cbn [orb].
      rewrite <- ?app_assoc. reflexivity. }
  split; [|split; [exact HView|rewrite HH2, HH; reflexivity]].
  unfold attached. rewrite HView, !existsb_app.
  rewrite (fresh_not_attached (nextId p) _ _ HW) by lia.
  destruct rs; cbn [existsb nodeId app]; decide_ids; reflexivity.
Qed.

End TurnTheorems.



(* ===================================================================== *)
(** ** The statements at concrete inputs *)
(* ===================================================================== *)

(** C1 at a response of two chunks. *)
Lemma final_render_ignores_chunking_witness :
  received exampleReads = str "2+2 is 4"
  /\ exists p' L',
       streamLoop exampleDeps exampleLayout 1 exampleReads (Done atBottom)
         examplePage = (p', Some L')
       /\ accumulatedText L' = str "2+2 is 4"
       /\ rawAiResponse L' = str "2+2 is 4"
       /\ formatMessage exampleDeps (accumulatedText L') =
            formatMessage exampleDeps (str "2+2 is 4")
       /\ match aiBubble L' with
          | Some b =>
              In (Message b TAi
                    (InnerHTML (formatted exampleDeps (str "2+2 is 4"))))
                (view p')
          | None => exampleReads = []
          end.
Proof.
  split; [reflexivity|].
  apply (final_render_ignores_chunking exampleDeps exampleLayout 1
           exampleReads atBottom examplePage (str "2+2 is 4")).
  reflexivity.
Defined.





(** C4 (round trip of math masking), at an input where the code breaks
    it.  A display span between two dollar signs of the text, with a
    parser and a sanitizer that return their input: the display pass masks
    the span, the inline pass then takes the two dollar signs for
    delimiters and captures the display placeholder with the text between
    them.  The restoration runs the display pass first, which finds no
    display placeholder in the markup, and the inline pass then puts the
    captured text back with the display placeholder still in it: the
    output does not hold the TeX source of the display span.  Restoring in
    the reverse order of the masking, inline first, gives the span back in
    double dollars. *)
Theorem display_span_not_restored :
  maskDisplay (str "costs $5 and $$x^2$$ and $6") =
    (str "costs $5 and %%%DISPLAY0%%% and $6", [str "x^2"])
  /\ maskInline (str "costs $5 and %%%DISPLAY0%%% and $6") =
       (str "costs %%%INLINE0%%%6", [str "5 and %%%DISPLAY0%%% and"])
  /\ formatMessage exampleDeps (str "costs $5 and $$x^2$$ and $6") =
       Returns (str "costs \(5 and %%%DISPLAY0%%% and\)6")
  /\ hasSub exact (str "$$x^2$$")
       (formatted exampleDeps (str "costs $5 and $$x^2$$ and $6")) = false
  /\ hasSub exact (str "x^2")
       (formatted exampleDeps (str "costs $5 and $$x^2$$ and $6")) = false
  /\ restoreDisplay [str "x^2"]
       (restoreInline [str "5 and %%%DISPLAY0%%% and"]
          (str "costs %%%INLINE0%%%6")) =
       str "costs \(5 and $$x^2$$ and\)6".
Proof. vm_compute. repeat split. Qed.

(** The round trip of one span, at a display span in the bracket
    spelling. *)
Lemma math_round_trip_witness :
  marked exampleDeps = Some Returns
  /\ plain (str " Area: ") = true
  /\ plain (str " units ") = true
  /\ str " x^2 " <> []
  /\ encloses Bracket (str " x^2 ") = true
  /\ noPercent (str " x^2 ") = true
  /\ formatMessage exampleDeps
       (str " Area: " ++ (opening Bracket ++ str " x^2 " ++ closing Bracket)
          ++ str " units ") =
       Returns (str "Area: " ++ rewrapped Bracket (str "x^2")
                  ++ str " units").
Proof.
  split; [reflexivity|]. split; [reflexivity|]. split; [reflexivity|].
  split; [discriminate|]. split; [reflexivity|]. split; [reflexivity|].
  apply (math_round_trip exampleDeps Returns Bracket (str " Area: ")
           (str " x^2 ") (str " units ") (str "Area: ") (str " units"));
    try reflexivity.
  discriminate.
Defined.

(** C6 at a turn answered in two chunks. *)
Lemma transcript_write_order_witness :
  trim (str " What is 2+2? ") = str "What is 2+2?"
  /\ str "What is 2+2?" <> []
  /\ conversationHistory
       (fst (sendMessage exampleDeps exampleLayout (str " What is 2+2? ")
               (Stream exampleReads (Done atBottom)) examplePage)) =
       [userTurn (str "What is 2+2?"); assistantTurn (str "2+2 is 4")].
Proof.
  split; [reflexivity|]. split; [discriminate|].
  pose proof (transcript_write_order exampleDeps exampleLayout
                (str " What is 2+2? ") (str "What is 2+2?")
                (Stream exampleReads (Done atBottom)) examplePage
                eq_refl ltac:(discriminate)) as H.
  exact (proj1 H).
Defined.

(** A stream that ends before any data: the transcript holds an assistant
    turn, with the empty string for content. *)
Lemma empty_stream_counterexample :
  conversationHistory
    (fst (sendMessage exampleDeps exampleLayout (str "hi")
            (Stream [] (Done atBottom)) examplePage)) =
    [ {| role := user; content := str "hi" |};
      {| role := assistant; content := [] |} ]
  /\ existsb
       (fun t => match role t with assistant => true | _ => false end)
       (conversationHistory
          (fst (sendMessage exampleDeps exampleLayout (str "hi")
                  (Stream [] (Done atBottom)) examplePage))) = true.
Proof. vm_compute. split; reflexivity. Qed.

(** C7 (amended) at the first turn of a page. *)
Lemma empty_stream_turn_witness :
  trim (str "hi") = str "hi"
  /\ str "hi" <> []
  /\ conversationHistory
       (fst (sendMessage exampleDeps exampleLayout (str "hi")
               (Stream [] (Done atBottom)) examplePage)) =
       conversationHistory examplePage
         ++ [userTurn (str "hi"); assistantTurn []]
  /\ view
       (fst (sendMessage exampleDeps exampleLayout (str "hi")
               (Stream [] (Done atBottom)) examplePage)) =
       view examplePage
         ++ [Message (nextId examplePage) TUser (TextContent (str "hi"));
             LoadingDiv (S (nextId examplePage))].
Proof.
  split; [reflexivity|]. split; [discriminate|].
  apply (empty_stream_turn exampleDeps exampleLayout (str "hi") (str "hi")
           atBottom examplePage).
  - reflexivity.
  - discriminate.
Defined.

(** A stream that breaks after two chunks: the loading placeholder is
    gone, but the assistant bubble that the first chunk made is still in
    the view, with the text received so far, before the system message. *)
Lemma partial_bubble_counterexample :
  view
    (fst (sendMessage exampleDeps exampleLayout (str "hi")
            (Stream exampleReads ReadFails) examplePage)) =
    [ Message 0 TUser (TextContent (str "hi"));
      Message 2 TAi (InnerHTML (str "2+2 is 4"));
      Message 3 TSystem (InnerHTML errorText) ]
  /\ existsb
       (fun n =>
          match n with
          | Message _ TAi _ => true
          | _ => false
          end)
       (view
          (fst (sendMessage exampleDeps exampleLayout (str "hi")
                  (Stream exampleReads ReadFails) examplePage))) = true.
Proof. vm_compute. split; reflexivity. Qed.

(** C8 (amended) at a stream that breaks after two chunks. *)
Lemma transport_failure_recovery_witness :
  wfPage examplePage
  /\ trim (str "hi") = str "hi"
  /\ str "hi" <> []
  /\ readsBeforeFailure (Stream exampleReads ReadFails) = Some exampleReads
  /\ attached 1
       (fst (sendMessage exampleDeps exampleLayout (str "hi")
               (Stream exampleReads ReadFails) examplePage)) = false
  /\ view
       (fst (sendMessage exampleDeps exampleLayout (str "hi")
               (Stream exampleReads ReadFails) examplePage)) =
       [ Message 0 TUser (TextContent (str "hi"));
         Message 2 TAi (InnerHTML (formatted exampleDeps (str "2+2 is 4")));
         Message 3 TSystem (InnerHTML (formatted exampleDeps errorText)) ]
  /\ conversationHistory
       (fst (sendMessage exampleDeps exampleLayout (str "hi")
               (Stream exampleReads ReadFails) examplePage)) =
       [userTurn (str "hi")].
Proof.
  split; [apply Forall_nil|]. split; [reflexivity|].
  split; [discriminate|]. split; [reflexivity|].
  apply (transport_failure_recovery exampleDeps exampleLayout (str "hi")
           (str "hi") (Stream exampleReads ReadFails) exampleReads
           examplePage).
  - apply Forall_nil.
  - reflexivity.
  - discriminate.
  - reflexivity.
Defined.



(* ===================================================================== *)
(** ** Further properties of formatMessage *)
(* ===================================================================== *)

Lemma stage1_output_clean (text : jsstring) :
  hasSub canonicalize Tags.rawOpen (stripThink text) = false
  /\ hasSub canonicalize Tags.escOpen (stripThink text) = false.
Proof.
  unfold stripThink.
  set (t2 := trim (removePairs Tags.escOpen Tags.escClose
                     (trim (removePairs Tags.rawOpen Tags.rawClose text)))).
  set (t3 := trim (removeOpenTail Tags.rawOpen t2)).
  assert (hasSub canonicalize Tags.rawOpen t3 = false) as H3.
  { apply hasSub_trim. apply removeOpenTail_clean. discriminate. }
  split.
  - apply hasSub_trim.
    destruct (removeOpenTail_prefix Tags.escOpen t3) as (y & Hy).
    rewrite Hy in H3. exact (hasSub_prefix _ _ _ _ H3).
  - apply hasSub_trim. apply removeOpenTail_clean. discriminate.
Qed.

(** Stage 1 is idempotent: the text it returns goes through it
    unchanged, so formatting the stage-1 text of a message gives the markup
    of the message. *)
Theorem stage1_idempotent (d : Deps) (text : jsstring) :
  stripThink (stripThink text) = stripThink text
  /\ (marked d <> None ->
      formatMessage d (stripThink text) = formatMessage d text).
Proof.
  assert (stripThink (stripThink text) = stripThink text) as H.
  { destruct (stage1_output_clean text) as [HR HX].
    rewrite (stripThink_clean _ HR HX). unfold stripThink.
    apply trim_idempotent. }
  split; [exact H|].
  intros HM. exact (formatMessage_clean d _ _ HM H).
Qed.

Lemma newlinesToBr_app (a b : jsstring) :
  newlinesToBr (a ++ b) = newlinesToBr a ++ newlinesToBr b.
Proof. unfold newlinesToBr. apply flat_map_app. Qed.

Lemma newlinesToBr_id (s : jsstring) :
  existsb (N.eqb LF) s = false -> newlinesToBr s = s.
Proof.
  induction s as [|c s IH]; intros H; [reflexivity|].
  cbn [existsb] in H. apply orb_false_iff in H. destruct H as [Hc Hs].
  unfold newlinesToBr in *. cbn [flat_map]. rewrite (IH Hs).
  destruct (N.eqb_spec c LF) as [->|]; [|reflexivity].
  rewrite N.eqb_refl in Hc. discriminate Hc.
Qed.

Lemma newlinesToBr_no_LF (s : jsstring) :
  existsb (N.eqb LF) (newlinesToBr s) = false.
Proof.
  induction s as [|c s IH]; [reflexivity|].
  unfold newlinesToBr in *. cbn [flat_map]. rewrite existsb_app.
  apply orb_false_iff. split; [|exact IH].
  destruct (N.eqb_spec c LF) as [->|Hc]; [reflexivity|].
  cbn [existsb]. destruct (N.eqb_spec LF c) as [E|]; [|reflexivity].
  symmetry in E. contradiction.
Qed.

Lemma tag_no_LF (tag o : jsstring) :
  existsb (N.eqb LF) tag = false ->
  map canonicalize o = tag ->
  existsb (N.eqb LF) o = false.
Proof.
  intros HT HO. subst tag. induction o as [|c o IH]; [reflexivity|].
  cbn [map existsb] in *. apply orb_false_iff in HT.
  destruct HT as [Hc Ho]. rewrite (IH Ho), orb_false_r.
  destruct (N.eqb_spec LF c) as [<-|]; [discriminate Hc|reflexivity].
Qed.

(** Without a markdown parser the four removal passes do not run: the
    text comes back with each line feed replaced by a line-break element
    and nothing else changed, so the markup holds no line feed, and a
    reasoning start tag of the text is still in the markup. *)
Theorem degraded_mode_keeps_reasoning (d : Deps) (text : jsstring) :
  marked d = None ->
  formatMessage d text = Returns (newlinesToBr text)
  /\ existsb (N.eqb LF) (formatted d text) = false
  /\ (existsb (N.eqb LF) text = false -> formatted d text = text)
  /\ (hasSub canonicalize Tags.rawOpen text = true ->
      hasSub canonicalize Tags.rawOpen (formatted d text) = true).
Proof.
  intros HM.
  assert (formatMessage d text = Returns (newlinesToBr text)) as HF
    by (unfold formatMessage; rewrite HM; reflexivity).
  unfold formatted. rewrite HF.
  split; [reflexivity|]. split; [apply newlinesToBr_no_LF|].
  split; [apply newlinesToBr_id|].
  unfold hasSub.
  destruct (findSub canonicalize Tags.rawOpen text) as [[a b]|] eqn:E;
    [|discriminate].
  intros _. destruct (findSub_inv _ _ _ _ _ E) as (o & -> & HO).
  rewrite !newlinesToBr_app.
  rewrite (newlinesToBr_id o (tag_no_LF Tags.rawOpen o eq_refl HO)).
  destruct (findSub_some canonicalize Tags.rawOpen (newlinesToBr a) o
              (newlinesToBr b) HO) as (x & y & HS).
  rewrite HS. reflexivity.
Qed.

(* ===================================================================== *)
(** ** The index of a placeholder *)
(* ===================================================================== *)

Lemma string_of_uint_digits (d : Decimal.uint) :
  str (NilEmpty.string_of_uint d) = digitsOf d.
Proof.
  induction d; [reflexivity|..]; unfold str in *; simpl; f_equal;
    assumption.
Qed.

Lemma digitsOf_isDigit (d : Decimal.uint) :
  forallb isDigit (digitsOf d) = true.
Proof. induction d; simpl; auto. Qed.

Lemma digitsValue_acc (d : Decimal.uint) (acc : nat) :
  fold_left (fun a c => 10 * a + N.to_nat (c - 48)) (digitsOf d) acc =
    Nat.of_uint_acc d acc.
Proof.
  revert acc. induction d; intros acc; [reflexivity|..];
    cbn [digitsOf fold_left Nat.of_uint_acc]; rewrite IHd;
    rewrite Nat.tail_mul_spec; f_equal; simpl N.to_nat; lia.
Qed.

Lemma to_uint_normal (i : nat) : Decimal.unorm (Nat.to_uint i) = Nat.to_uint i.
Proof.
  rewrite <- (DecimalNat.Unsigned.to_of (Nat.to_uint i)).
  rewrite DecimalNat.Unsigned.of_to. reflexivity.
Qed.

Lemma to_uint_head (i : nat) :
  exists c ds,
    digitsOf (Nat.to_uint i) = c :: ds
    /\ ((c =? 48)%N = true -> ds = []).
Proof.
  pose proof (to_uint_normal i) as HN.
  destruct (Nat.to_uint i) as [|d'|d'|d'|d'|d'|d'|d'|d'|d'|d'] eqn:E;
    try (eexists; eexists; split; [reflexivity|discriminate]).
  - discriminate HN.
  - exists 48%N, (digitsOf d'). split; [reflexivity|]. intros _.
    rewrite DecimalFacts.unorm_D0 in HN.
    destruct (Decimal.nzhead d') eqn:EN;
      try (rewrite (DecimalFacts.unorm_nzhead d') in HN
             by (rewrite EN; discriminate);
           rewrite EN in HN; discriminate HN).
    + unfold Decimal.unorm in HN. rewrite EN in HN.
      injection HN as <-. reflexivity.
    + rewrite (DecimalFacts.unorm_nzhead d') in HN
        by (rewrite EN; discriminate).
      exfalso. exact (DecimalFacts.nzhead_nonzero d' d' HN).
Qed.

(** The digits that a masking pass prints for the index of a span name
    the entry of that index. *)
Lemma arrayGet_showNat (table : list jsstring) (i : nat) :
  arrayGet table (showNat i) = printed table i.
Proof.
  unfold arrayGet, showNat, printed. rewrite string_of_uint_digits.
  unfold digitsValue. rewrite digitsValue_acc.
  change (Nat.of_uint_acc (Nat.to_uint i) 0)
    with (Nat.of_uint (Nat.to_uint i)).
  rewrite DecimalNat.Unsigned.of_to.
  destruct (to_uint_head i) as (c & ds & -> & HZ).
  destruct (N.eqb_spec c 48) as [->|HC].
  - rewrite (HZ eq_refl). reflexivity.
  - destruct c as [|c]; [reflexivity|].
    do 6 (destruct c as [c|c|]; try reflexivity).
    contradiction HC. reflexivity.
Qed.

(** At a match, the replacement is emitted and the scan resumes after
    it. *)
Lemma replaceFrom_span (A : Type) (matchAt : jsstring -> option (nat * A))
  (emit : nat -> A -> jsstring) (idx : nat) (sp s : jsstring) (a : A) :
  sp <> [] ->
  matchAt (sp ++ s) = Some (List.length sp, a) ->
  replaceFrom matchAt emit idx 0 (sp ++ s) =
    (emit idx a ++ fst (replaceFrom matchAt emit (S idx) 0 s),
     a :: snd (replaceFrom matchAt emit (S idx) 0 s)).
Proof.
  intros HS HM. destruct sp as [|c m]; [congruence|].
  exact (replaceFrom_match A matchAt emit idx c m s a HM).
Qed.

Section TokenFacts.

Variable name : jsstring.
Variable emit : nat -> jsstring -> jsstring.

(** A placeholder is recognised, with the digits of its index. *)
Lemma matchToken_token (i : nat) (v : jsstring) :
  matchToken name ((str "%%%" ++ name ++ showNat i ++ str "%%%") ++ v) =
    Some (List.length (str "%%%" ++ name ++ showNat i ++ str "%%%"),
          showNat i).
Proof.
  unfold matchToken.
  replace ((str "%%%" ++ name ++ showNat i ++ str "%%%") ++ v)
    with ((str "%%%" ++ name) ++ showNat i ++ str "%%%" ++ v)
    by (rewrite <- !app_assoc; reflexivity).
  rewrite (stripPrefix_app exact _ (str "%%%" ++ name) _ (map_exact _)).
  unfold showNat. rewrite string_of_uint_digits.
  destruct (to_uint_head i) as (c & ds & E & _).
  pose proof (digitsOf_isDigit (Nat.to_uint i)) as HD.
  change (str "%%%" ++ v) with (37%N :: str "%%" ++ v).
  rewrite (span_all isDigit _ 37%N _ HD eq_refl).
  rewrite E. simpl stripPrefix. cbv beta iota.
  f_equal. f_equal. simpl. rewrite !length_app. simpl.
  rewrite !length_app. simpl. lia.
Qed.

Lemma restore_token (i : nat) (u v : jsstring) :
  noPercent u = true ->
  noPercent v = true ->
  fst (replaceAll (matchToken name) emit
         (u ++ (str "%%%" ++ name ++ showNat i ++ str "%%%") ++ v)) =
    u ++ emit 0 (showNat i) ++ v.
Proof.
  intros Hu Hv. unfold replaceAll.
  rewrite (restore_prefix name emit 0 u _ Hu).
  pose proof (matchToken_token i v) as HM.
  assert (str "%%%" ++ name ++ showNat i ++ str "%%%" <> []) as HT
    by discriminate.
  set (token := str "%%%" ++ name ++ showNat i ++ str "%%%") in *.
  rewrite (replaceFrom_span _ (matchToken name) emit 0 token v _ HT HM).
  rewrite (restore_none name emit 1 v Hv). reflexivity.
Qed.

End TokenFacts.

(** The index of a placeholder makes the round trip through the markup:
    the placeholder that a masking pass prints for the span number [i] is
    replaced, in a markup that holds no other percent sign, by the entry
    [i] of the table in the delimiters of its kind, and by the word
    [undefined] in those delimiters when the table has no such entry. *)
Theorem placeholder_index_round_trip (table : list jsstring) (i : nat)
  (tex u v : jsstring) :
  noPercent u = true ->
  noPercent v = true ->
  restoreDisplay table (u ++ displayToken i tex ++ v) =
    u ++ (str "$$" ++ printed table i ++ str "$$") ++ v
  /\ restoreInline table (u ++ inlineToken i tex ++ v) =
       u ++ (str "\(" ++ printed table i ++ str "\)") ++ v.
Proof.
  intros Hu Hv. unfold restoreDisplay, restoreInline. split.
  - rewrite <- (arrayGet_showNat table i).
    exact (restore_token (str "DISPLAY") _ i u v Hu Hv).
  - rewrite <- (arrayGet_showNat table i).
    exact (restore_token (str "INLINE") _ i u v Hu Hv).
Qed.

(* ===================================================================== *)
(** ** Messages without math *)
(* ===================================================================== *)

(** A removal pass only removes: what holds of every code unit of the
    text holds of every code unit of the result. *)
Lemma erase_keeps (f : char -> bool) (m : jsstring -> option (nat * unit))
  (s : jsstring) :
  forallb f s = true ->
  forall idx k, forallb f (fst (replaceFrom m erase idx k s)) = true.
Proof.
  induction s as [|c s IH]; intros H idx k; [reflexivity|].
  simpl in H. apply andb_true_iff in H. destruct H as [Hc Hs].
  destruct k as [|k]; [|exact (IH Hs idx k)].
  rewrite replaceFrom_scan. destruct (m (c :: s)) as [[len []]|].
  - exact (IH Hs (S idx) (Nat.pred len)).
  - simpl. rewrite Hc. exact (IH Hs idx 0).
Qed.

Lemma trim_keeps (f : char -> bool) (s : jsstring) :
  forallb f s = true -> forallb f (trim s) = true.
Proof.
  intros H. destruct (trim_infix s) as (x & y & E). rewrite E in H.
  rewrite !forallb_app in H.
  apply andb_true_iff in H. destruct H as [_ H].
  apply andb_true_iff in H. tauto.
Qed.

Lemma stripThink_keeps (f : char -> bool) (text : jsstring) :
  forallb f text = true -> forallb f (stripThink text) = true.
Proof.
  intros H. unfold stripThink, removePairs, removeOpenTail, replaceAll.
  repeat (apply trim_keeps; apply erase_keeps). exact H.
Qed.

(** A message without dollar sign and backslash holds no math: the parser
    receives the stage-1 text as it is, and a markup without percent sign
    is returned as the parser, and the sanitizer after it, made it. *)
Theorem message_without_math (d : Deps) (parse : jsstring -> outcome)
  (text markup : jsstring) :
  marked d = Some parse ->
  plain text = true ->
  tryCatch (parseAndSanitize d parse (stripThink text)) (stripThink text)
    = markup ->
  noPercent markup = true ->
  maskDisplay (stripThink text) = (stripThink text, [])
  /\ maskInline (stripThink text) = (stripThink text, [])
  /\ formatMessage d text = Returns markup.
Proof.
  intros HM HP HK HN.
  pose proof (stripThink_keeps plainChar text HP) as HS.
  assert (maskDisplay (stripThink text) = (stripThink text, [])) as H1
    by exact (mask_plain matchDisplay displayToken matchDisplay_plain 0
                _ HS).
  assert (maskInline (stripThink text) = (stripThink text, [])) as H2
    by exact (mask_plain matchInline inlineToken matchInline_plain 0
                _ HS).
  split; [exact H1|]. split; [exact H2|].
  rewrite (formatMessage_masked d parse text _ _ _ _ HM H1 H2), HK.
  assert (restoreDisplay [] markup = markup) as HD
    by (unfold restoreDisplay, replaceAll;
        rewrite (restore_none _ _ 0 markup HN); reflexivity).
  rewrite HD, (restoreInline_none [] markup HN). reflexivity.
Qed.

(** The sanitizer runs inside the [try] of the parser: when it throws, the
    masked text itself, neither parsed nor sanitized, is the markup that
    goes to restoration; when there is no sanitizer the markup of the
    parser goes to restoration as it is. *)
Theorem sanitizer_stage (d : Deps) (parse : jsstring -> outcome)
  (text c1 c2 html : jsstring) (displayMath inlineMath : list jsstring) :
  marked d = Some parse ->
  maskDisplay (stripThink text) = (c1, displayMath) ->
  maskInline c1 = (c2, inlineMath) ->
  parse c2 = Returns html ->
  formatMessage d text =
    Returns
      (restoreInline inlineMath
         (restoreDisplay displayMath
            match DOMPurify d with
            | None => html
            | Some sanitize =>
                match sanitize html with
                | Returns clean => clean
                | Throws => c2
                end
            end)).
Proof.
  intros HM H1 H2 HP.
  rewrite (formatMessage_masked d parse text c1 c2 _ _ HM H1 H2).
  unfold parseAndSanitize. rewrite HP. simpl.
  destruct (DOMPurify d) as [sanitize|]; [|reflexivity].
  destruct (sanitize html); reflexivity.
Qed.

(* ===================================================================== *)
(** ** Further properties of a turn *)
(* ===================================================================== *)

(** The page after [addMessage]. *)
Lemma addMessage_run (d : Deps) (layout : list Node -> Z)
  (text : jsstring) (type : MsgType) (p : Page) :
  addMessage d layout text type p =
    (let v := view p ++ [Message (nextId p) type (bodyOf d type text)] in
     {| conversationHistory := conversationHistory p;
        view := v;
        viewport := relaid layout v (viewport p) true;
        nextId := S (nextId p);
        log := log p ++ match type with
                        | TUser => []
                        | TAi | TSystem => typesetEvents d
                        end |},
     Some (nextId p)).
Proof.
  unfold addMessage, bind, createElement, typeset, typesetEvents.
  destruct type; simpl; rewrite ?callFormat_run;
    destruct (MathJax d);
    unfold emitEvent, appendChild, setView, scrollToBottom, modify, ret,
      relaid; simpl; rewrite ?app_nil_r; reflexivity.
Qed.

Lemma relaid_at_bottom (layout : list Node -> Z) (v : list Node)
  (vp : Viewport) :
  isAtBottom (relaid layout v vp true) = true.
Proof.
  unfold isAtBottom, relaid. simpl. apply Z.ltb_lt. lia.
Qed.

(** [addMessage] appends one bubble and scrolls to it: a user's text is
    shown as text, never as markup; the text of the assistant and of the
    system is shown as the markup of [formatMessage]; the transcript is
    not touched; whatever the geometry was, the view is at the bottom
    afterwards. *)
Theorem addMessage_appends (d : Deps) (layout : list Node -> Z)
  (text : jsstring) (type : MsgType) (p : Page) :
  exists p',
    addMessage d layout text type p = (p', Some (nextId p))
    /\ view p' =
         view p ++ [Message (nextId p) type
                      match type with
                      | TUser => TextContent text
                      | TAi | TSystem => InnerHTML (formatted d text)
                      end]
    /\ conversationHistory p' = conversationHistory p
    /\ existsb isPush (log p') = existsb isPush (log p)
    /\ isAtBottom (viewport p') = true.
Proof.
  rewrite addMessage_run. eexists. split; [reflexivity|]. simpl.
  split; [destruct type; reflexivity|]. split; [reflexivity|].
  split; [|apply relaid_at_bottom].
  rewrite existsb_app. unfold typesetEvents.
  destruct type, (MathJax d); simpl; rewrite ?orb_false_r; reflexivity.
Qed.

(** An input of white space only is ignored: nothing is shown, recorded,
    saved or sent. *)
Theorem blank_input_ignored (d : Deps) (layout : list Node -> Z)
  (value : jsstring) (net : Net) (p : Page) :
  forallb isSpace value = true ->
  sendMessage d layout value net p = (p, Some tt).
Proof.
  intros H. unfold sendMessage, trim.
  rewrite (trimStart_all_space value H). reflexivity.
Qed.

(** [sendMessage] has no uncaught exception: whatever the network does,
    the call completes. *)
Theorem sendMessage_completes (d : Deps) (layout : list Node -> Z)
  (value : jsstring) (net : Net) (p : Page) :
  snd (sendMessage d layout value net p) = Some tt.
Proof.
  destruct (trim value) as [|c t] eqn:HT.
  - unfold sendMessage. rewrite HT. reflexivity.
  - rewrite (sendMessage_submit d layout value net p c t HT).
    unfold tryCatchM.
    destruct (tryBlock d layout (S (nextId p)) net
                (submitted d layout p (c :: t))) as [p1 [[]|]].
    + reflexivity.
    + destruct (catchBlock_run d layout (S (nextId p)) p1)
        as (p2 & HR & _).
      rewrite HR. reflexivity.
Qed.

(* ===================================================================== *)
(** ** The renderings of a stream *)
(* ===================================================================== *)

Lemma renders_prefixes (d : Deps) (rs : list Read) :
  forall acc : jsstring,
    renders d acc rs =
      map (fun k => EvRender (formatted d (acc ++ receivedUpTo (S k) rs)))
        (seq 0 (List.length rs)).
Proof.
  induction rs as [|r rs IH]; intros acc; [reflexivity|].
  cbn [renders List.length seq map]. f_equal.
  - unfold receivedUpTo, received. simpl. rewrite app_nil_r. reflexivity.
  - rewrite IH, <- seq_shift, map_map. apply map_ext. intros k.
    unfold receivedUpTo. cbn [firstn]. rewrite received_cons, app_assoc.
    reflexivity.
Qed.

Lemma filter_isRender_renders (d : Deps) (rs : list Read) (acc : jsstring) :
  filter isRender (renders d acc rs) = renders d acc rs.
Proof.
  revert acc. induction rs as [|r rs IH]; intros acc; [reflexivity|].
  simpl. rewrite IH. reflexivity.
Qed.

(** Every read that carries data renders the bubble once, from all the
    text received up to and including that read; the transcript is not
    touched while the stream is read. *)
Theorem render_per_read (d : Deps) (layout : list Node -> Z) (l : nat)
  (rs : list Read) (p : Page) :
  exists p' L',
    onChunks d layout l rs loopStart p = (p', Some L')
    /\ filter isRender (log p') =
         filter isRender (log p)
           ++ map (fun k => EvRender (formatted d (receivedUpTo (S k) rs)))
                (seq 0 (List.length rs))
    /\ conversationHistory p' = conversationHistory p.
Proof.
  destruct (onChunks_start d layout l rs p)
    as (p' & L' & HR & HH & HL & _).
  exists p', L'. split; [exact HR|]. split; [|exact HH].
  rewrite HL, filter_app. f_equal. destruct rs as [|r rs]; [reflexivity|].
  rewrite filter_app, filter_isRender_renders, renders_prefixes.
  unfold typesetEvents. destruct (MathJax d); reflexivity.
Qed.

(* ===================================================================== *)
(** ** What the history store holds *)
(* ===================================================================== *)

Lemma lastSaved_app (a b : list Event) :
  lastSaved (a ++ b) =
    match lastSaved b with
    | Some h => Some h
    | None => lastSaved a
    end.
Proof.
  induction a as [|e a IH]; simpl.
  - destruct (lastSaved b); reflexivity.
  - rewrite IH. destruct (lastSaved b); reflexivity.
Qed.

Lemma lastSaved_renders (d : Deps) (rs : list Read) (acc : jsstring) :
  lastSaved (renders d acc rs) = None.
Proof.
  revert acc. induction rs as [|r rs IH]; intros acc; [reflexivity|].
  simpl. rewrite IH. reflexivity.
Qed.

Lemma lastSaved_typeset (d : Deps) : lastSaved (typesetEvents d) = None.
Proof. unfold typesetEvents. destruct (MathJax d); reflexivity. Qed.

Lemma lastSaved_stream (d : Deps) (rs : list Read) :
  lastSaved (streamEvents d rs) = None.
Proof.
  unfold streamEvents. destruct rs; [reflexivity|].
  rewrite lastSaved_app, lastSaved_renders. apply lastSaved_typeset.
Qed.

(** With the history store present, the store holds the transcript as it
    is at the end of the turn, whether the turn completed or failed. *)
Theorem saved_transcript_in_step (d : Deps) (layout : list Node -> Z)
  (value : jsstring) (net : Net) (p : Page) :
  electronAPI d = true ->
  trim value <> [] ->
  lastSaved (log (fst (sendMessage d layout value net p))) =
    Some (conversationHistory (fst (sendMessage d layout value net p))).
Proof.
  intros HE HT. destruct (trim value) as [|c t] eqn:HV; [congruence|].
  rewrite (sendMessage_submit d layout value net p c t HV).
  unfold tryCatchM.
  assert (lastSaved (log (submitted d layout p (c :: t))) =
          Some (conversationHistory (submitted d layout p (c :: t))))
    as HS.
  { unfold submitted, saveEvents. simpl. rewrite HE, lastSaved_app.
    reflexivity. }
  destruct (readsBeforeFailure net) as [rs|] eqn:HF.
  - destruct (tryBlock_fails d layout (S (nextId p)) net rs
                (submitted d layout p (c :: t)) HF)
      as (p1 & HR & HH & HL & _).
    rewrite HR.
    destruct (catchBlock_run d layout (S (nextId p)) p1)
      as (p2 & HR2 & HH2 & HL2 & _).
    rewrite HR2. simpl. rewrite HL2, HH2, HL, HH.
    rewrite lastSaved_app, lastSaved_typeset.
    change (EvFetch (conversationHistory (submitted d layout p (c :: t)))
              :: streamEvents d rs)
      with ([EvFetch (conversationHistory (submitted d layout p (c :: t)))]
              ++ streamEvents d rs).
    rewrite !lastSaved_app, lastSaved_stream. exact HS.
  - destruct net as [| |rs [vp|]]; try discriminate HF.
    destruct (tryBlock_completes d layout (S (nextId p)) rs vp
                (submitted d layout p (c :: t)))
      as (p1 & HR & HH & HL & _).
    rewrite HR. simpl. rewrite HL, HH.
    match goal with
    | |- lastSaved (?a ++ ?e :: ?s ++ ?t ++ ?e' :: ?v) = _ =>
        change (a ++ e :: s ++ t ++ e' :: v)
          with (a ++ [e] ++ s ++ t ++ [e'] ++ v)
    end.
    rewrite !lastSaved_app. unfold saveEvents. rewrite HE. reflexivity.
Qed.

(* ===================================================================== *)
(** ** Element identities stay fresh *)
(* ===================================================================== *)

Lemma fresh_weaken (k k' : nat) (v : list Node) :
  k <= k' ->
  Forall (fun n => nodeId n < k) v ->
  Forall (fun n => nodeId n < k') v.
Proof.
  intros HK HV. apply (Forall_impl _ (P := fun n => nodeId n < k));
    [intros n Hn; lia|exact HV].
Qed.

Lemma fresh_without (k l : nat) (v : list Node) :
  Forall (fun n => nodeId n < k) v ->
  Forall (fun n => nodeId n < k) (without l v).
Proof.
  intros HV. unfold without. rewrite Forall_forall in *. intros n Hn.
  apply filter_In in Hn. apply HV. tauto.
Qed.

Lemma fresh_withHtml (k b : nat) (html : jsstring) (v : list Node) :
  Forall (fun n => nodeId n < k) v ->
  Forall (fun n => nodeId n < k) (withHtml b html v).
Proof.
  intros HV. unfold withHtml. induction HV as [|x v Hx _ IH];
    [constructor|].
  simpl. constructor; [|exact IH].
  destruct x as [i t body|i]; [|exact Hx].
  destruct (Nat.eqb i b); exact Hx.
Qed.

Lemma fresh_detached (k l : nat) (p : Page) :
  Forall (fun n => nodeId n < k) (view p) ->
  Forall (fun n => nodeId n < k)
    (if attached l p then without l (view p) else view p).
Proof.
  intros HV. destruct (attached l p); [apply fresh_without|]; exact HV.
Qed.

Lemma fresh_streamed (d : Deps) (l : nat) (text : jsstring) (p : Page) :
  wfPage p ->
  Forall (fun n => nodeId n < S (nextId p))
    (streamedView d l (nextId p) text p).
Proof.
  intros HW. unfold streamedView. apply fresh_withHtml.
  apply Forall_app. split.
  - apply (fresh_weaken (nextId p)); [lia|].
    apply fresh_detached. exact HW.
  - constructor; [simpl; lia|constructor].
Qed.

Lemma fresh_submitted (d : Deps) (layout : list Node -> Z) (p : Page)
  (text : jsstring) :
  wfPage p -> wfPage (submitted d layout p text).
Proof.
  intros HW. unfold wfPage, submitted. simpl.
  apply Forall_app. split; [apply Forall_app; split|].
  - apply (fresh_weaken (nextId p)); [lia|exact HW].
  - constructor; [simpl; lia|constructor].
  - constructor; [simpl; lia|constructor].
Qed.

Lemma catchBlock_next (d : Deps) (layout : list Node -> Z) (l : nat)
  (p : Page) :
  nextId (fst (catchBlock d layout l p)) = S (nextId p).
Proof.
  unfold catchBlock, bind. simpl.
  destruct (attached l p); unfold removeChild, setView, modify, ret;
    simpl; rewrite addMessage_run; reflexivity.
Qed.

Lemma tryBlock_next (d : Deps) (layout : list Node -> Z) (l : nat)
  (rs : list Read) (vp : Viewport) (p : Page) :
  nextId (fst (tryBlock d layout l (Stream rs (Done vp)) p)) =
    match rs with [] => nextId p | _ :: _ => S (nextId p) end.
Proof.
  unfold tryBlock, bind at 1. simpl. unfold bind at 1. simpl.
  unfold streamLoop.
  match goal with
  | |- context [bind _ _ ?p1] =>
      destruct (onChunks_start d layout l rs p1)
        as (p' & L' & HR & HH & HL & HV & HN & HA & HW & HF & HB)
  end.
  unfold bind at 1. unfold bind at 1. rewrite HR. simpl in *.
  unfold typeset, pushTurn, saveHistory, bind, observe, modify, ret.
  simpl.
  destruct (MathJax d), (electronAPI d);
    unfold emitEvent, modify, ret; simpl; exact HN.
Qed.

(** A turn keeps the element identities fresh: when every child of
    [chatHistory] was created before the next element will be, the same
    holds after [sendMessage], whatever the input and the network. *)
Theorem identities_stay_fresh (d : Deps) (layout : list Node -> Z)
  (value : jsstring) (net : Net) (p : Page) :
  wfPage p ->
  wfPage (fst (sendMessage d layout value net p)).
Proof.
  intros HW. destruct (trim value) as [|c t] eqn:HT.
  - unfold sendMessage. rewrite HT. exact HW.
  - rewrite (sendMessage_submit d layout value net p c t HT).
    pose proof (fresh_submitted d layout p (c :: t) HW) as HS.
    set (p0 := submitted d layout p (c :: t)) in *.
    unfold tryCatchM.
    destruct (readsBeforeFailure net) as [rs|] eqn:HF.
    + destruct (tryBlock_fails d layout (S (nextId p)) net rs p0 HF)
        as (p1 & HR & HH & HL & HV & HN).
      rewrite HR.
      assert (wfPage p1) as HW1.
      { unfold wfPage. rewrite HV, HN. destruct rs; [exact HS|].
        exact (fresh_streamed d _ _ p0 HS). }
      pose proof (catchBlock_next d layout (S (nextId p)) p1) as HN2.
      destruct (catchBlock_run d layout (S (nextId p)) p1)
        as (p2 & HR2 & _ & _ & HV2).
      rewrite HR2 in *. simpl in *. unfold wfPage. rewrite HV2, HN2.
      apply Forall_app. split.
      * apply (fresh_weaken (nextId p1)); [lia|].
        apply fresh_detached. exact HW1.
      * constructor; [simpl; lia|constructor].
    + destruct net as [| |rs [vp|]]; try discriminate HF.
      pose proof (tryBlock_next d layout (S (nextId p)) rs vp p0) as HN.
      destruct (tryBlock_completes d layout (S (nextId p)) rs vp p0)
        as (p1 & HR & _ & _ & HV).
      rewrite HR in *. simpl in *. unfold wfPage. rewrite HV, HN.
      destruct rs; [exact HS|]. exact (fresh_streamed d _ _ p0 HS).
Qed.

(* ===================================================================== *)
(** ** The view after a completed turn *)
(* ===================================================================== *)

Ltac compare_ids :=
  repeat match goal with
    | |- context [Nat.eqb ?a ?b] =>
        first
          [ replace (Nat.eqb a b) with false
              by (symmetry; apply Nat.eqb_neq; lia)
          | replace (Nat.eqb a b) with true
              by (symmetry; apply Nat.eqb_eq; lia) ]
    end.

(** A turn whose stream carried data and was read to its end, on a page
    with fresh element identities: the loading placeholder is gone, and
    the view has gained the user's bubble with the text as text and the
    assistant's bubble with the markup of the whole response; these are
    the bubbles that loading the two new turns of the transcript
    renders. *)
Theorem completed_turn_view (d : Deps) (layout : list Node -> Z)
  (value text : jsstring) (r : Read) (rs : list Read) (vp : Viewport)
  (p : Page) :
  wfPage p ->
  trim value = text ->
  text <> [] ->
  let n := nextId p in
  let p' :=
    fst (sendMessage d layout value (Stream (r :: rs) (Done vp)) p) in
  attached (S n) p' = false
  /\ view p' =
       view p ++ [Message n TUser (TextContent text);
                  Message (S (S n)) TAi
                    (InnerHTML (formatted d (received (r :: rs))))]
  /\ map shown (view p') =
       map shown (view p)
         ++ map shown
              (bubbles d n
                 [userTurn text; assistantTurn (received (r :: rs))]).
Proof.
  intros HW HT HNE n p'. subst n p'.
  destruct text as [|c t]; [congruence|].
  rewrite (sendMessage_submit d layout value _ p c t HT). unfold tryCatchM.
  destruct (tryBlock_completes d layout (S (nextId p)) (r :: rs) vp
              (submitted d layout p (c :: t)))
    as (p1 & HR & HH & HL & HV).
  rewrite HR. simpl fst.
  change (nextId (submitted d layout p (c :: t)))
    with (S (S (nextId p))) in HV.
  rewrite (submitted_streamed d layout p (c :: t) _ HW) in HV.
  split; [|split].
  - unfold attached. rewrite HV, existsb_app.
    rewrite (fresh_not_attached (nextId p) _ _ HW) by lia.
    cbn [existsb nodeId]. compare_ids. reflexivity.
  - exact HV.
  - rewrite HV, map_app. reflexivity.
Qed.

(* ===================================================================== *)
(** ** Start-up *)
(* ===================================================================== *)

(** Typesetting a bubble pushes no turn and saves nothing. *)
Lemma typeset_no_push (d : Deps) (type : MsgType) (l : list Event) :
  existsb isPush
    (l ++ match type with
          | TUser => []
          | TAi | TSystem => typesetEvents d
          end) = existsb isPush l
  /\ lastSaved
       (l ++ match type with
             | TUser => []
             | TAi | TSystem => typesetEvents d
             end) = lastSaved l.
Proof.
  rewrite existsb_app, lastSaved_app. unfold typesetEvents.
  destruct type, (MathJax d); simpl; rewrite ?orb_false_r;
    split; reflexivity.
Qed.

Lemma renderTurns_run (d : Deps) (layout : list Node -> Z)
  (h : list Turn) :
  forall p : Page,
    exists p',
      renderTurns d layout h p = (p', Some tt)
      /\ conversationHistory p' = conversationHistory p
      /\ view p' = view p ++ bubbles d (nextId p) h
      /\ nextId p' = List.length h + nextId p
      /\ existsb isPush (log p') = existsb isPush (log p)
      /\ lastSaved (log p') = lastSaved (log p).
Proof.
  induction h as [|t h IH]; intros p.
  - exists p. simpl. rewrite app_nil_r. repeat split; reflexivity.
  - cbn [renderTurns]. unfold bind. rewrite addMessage_run.
    match goal with
    | |- context [renderTurns d layout h ?p1] =>
        destruct (IH p1) as (p' & HR & HH & HV & HN & HP & HS)
    end.
    exists p'. rewrite HR. simpl in *.
    destruct (typeset_no_push d (typeOfRole (role t)) (log p))
      as [HP' HS'].
    rewrite HH, HV, HN, HP, HS, HP', HS', <- app_assoc.
    repeat split; try reflexivity. lia.
Qed.

Lemma bubbles_length (d : Deps) (h : list Turn) :
  forall n : nat, List.length (bubbles d n h) = List.length h.
Proof.
  induction h as [|t h IH]; intros n; simpl; [reflexivity|].
  rewrite (IH (S n)). reflexivity.
Qed.

(** A saved transcript that is not empty becomes the transcript of the
    page, and every turn of it is shown, in order: a user's turn as text,
    an assistant's turn as the markup of its content.  Nothing is pushed
    and nothing is saved. *)
Theorem saved_history_shown (d : Deps) (layout : list Node -> Z)
  (h : list Turn) (p : Page) :
  electronAPI d = true ->
  h <> [] ->
  exists p',
    loadHistory d layout (Saved h) p = (p', Some tt)
    /\ conversationHistory p' = h
    /\ view p' = view p ++ bubbles d (nextId p) h
    /\ List.length (view p') = List.length (view p) + List.length h
    /\ existsb isPush (log p') = existsb isPush (log p)
    /\ lastSaved (log p') = lastSaved (log p).
Proof.
  intros HE HN. destruct h as [|t h]; [congruence|].
  unfold loadHistory. rewrite HE. unfold tryCatchM, bind.
  unfold setHistory, modify.
  match goal with
  | |- context [renderTurns d layout (t :: h) ?p1] =>
      destruct (renderTurns_run d layout (t :: h) p1)
        as (p' & HR & HH & HV & _ & HP & HS)
  end.
  rewrite HR. exists p'.
  split; [reflexivity|]. split; [exact HH|]. split; [exact HV|].
  split; [|split; [exact HP|exact HS]].
  rewrite HV, length_app, bubbles_length. reflexivity.
Qed.

Lemma greet_run (d : Deps) (layout : list Node -> Z) (p : Page) :
  exists p',
    greet d layout p = (p', Some tt)
    /\ conversationHistory p' = conversationHistory p
    /\ view p' =
         view p ++ [Message (nextId p) TAi
                      (InnerHTML (formatted d greeting))]
    /\ existsb isPush (log p') = existsb isPush (log p)
    /\ lastSaved (log p') = lastSaved (log p).
Proof.
  unfold greet, bind. rewrite addMessage_run. eexists.
  split; [reflexivity|]. simpl.
  destruct (typeset_no_push d TAi (log p)) as [HP HS].
  repeat split; assumption.
Qed.

(** Without the history store, when loading fails, and when what was
    loaded is not an array or is empty, the greeting is shown once, as an
    assistant's bubble, and it is not recorded: the transcript is what it
    was, and nothing is pushed or saved. *)
Theorem greeting_not_recorded (d : Deps) (layout : list Node -> Z)
  (stored : Loaded) (p : Page) :
  electronAPI d = false \/ stored = LoadFails \/ stored = NotAnArray
  \/ stored = Saved [] ->
  exists p',
    loadHistory d layout stored p = (p', Some tt)
    /\ conversationHistory p' = conversationHistory p
    /\ view p' =
         view p ++ [Message (nextId p) TAi
                      (InnerHTML (formatted d greeting))]
    /\ existsb isPush (log p') = existsb isPush (log p)
    /\ lastSaved (log p') = lastSaved (log p).
Proof.
  intros H. unfold loadHistory.
  destruct (greet_run d layout p) as (p' & HR & HG).
  exists p'. split; [|exact HG].
  destruct (electronAPI d); [|exact HR].
  destruct H as [H|[H|[H|H]]]; [discriminate H|..]; subst stored;
    unfold tryCatchM; try rewrite HR; try reflexivity.
  unfold throw. exact HR.
Qed.



(* ===================================================================== *)
(** ** The passes on their own *)
(* ===================================================================== *)

(** The to-end-of-string pass of either spelling cuts the text at the
    first start tag of that spelling: what comes before it is kept as it
    is, the tag and all that follows are removed; a text without such a
    tag is not changed. *)
Theorem pending_pass_cuts (tag x o y : jsstring) :
  In tag [Tags.rawOpen; Tags.escOpen] ->
  hasSub canonicalize tag x = false ->
  map canonicalize o = tag ->
  removeOpenTail tag (x ++ o ++ y) = x
  /\ removeOpenTail tag x = x.
Proof.
  intros HT HX HO. split; [|exact (removeOpenTail_id tag x HX)].
  rewrite removeOpenTail_cut.
  assert (apart tag tag = true) as HA
    by (destruct HT as [<-|[<-|[]]]; reflexivity).
  rewrite (findSub_first canonicalize tag x o y HA HX HO). reflexivity.
Qed.

Lemma span_stops_at_LF (a rest : jsstring) :
  noDollar a = true ->
  exists x y, span notDollarNorLF (a ++ LF :: rest) = (x, LF :: y).
Proof.
  intros H. induction a as [|c a IH].
  - exists [], rest. reflexivity.
  - simpl in H. apply andb_true_iff in H. destruct H as [Hc Ha].
    destruct (IH Ha) as (x & y & E).
    cbn [app span]. rewrite E.
    unfold notDollarNorLF. apply negb_true_iff in Hc. rewrite Hc.
    destruct (N.eqb_spec c LF) as [->|].
    + exists [], (a ++ LF :: rest). reflexivity.
    + exists (c :: x), y. reflexivity.
Qed.

(** Inline math between single dollars does not cross a line: a dollar
    sign that is followed by a line feed before the next dollar sign opens
    no span. *)
Theorem dollar_stops_at_line_end (a rest : jsstring) :
  noDollar a = true ->
  matchInline (str "$" ++ a ++ LF :: rest) = None.
Proof.
  intros H. unfold matchInline, lazySpan. simpl stripPrefix.
  cbv beta iota.
  destruct (span_stops_at_LF a rest H) as (x & y & E).
  match goal with
  | |- context [span notDollarNorLF ?s] =>
      replace (span notDollarNorLF s) with (x, LF :: y)
        by (symmetry; exact E)
  end.
  destruct x; reflexivity.
Qed.

(** The text of the test script: the display expression matches the
    bracket span once, and captures its source trimmed; the inline
    expression then matches the parenthesis span. *)
Theorem debug_script_match :
  maskDisplay debugContent =
    (str "The Pythagorean theorem is ... expressed as:"
       ++ [LF; LF] ++ displayToken 0 [] ++ [LF; LF]
       ++ str "where \( c \) represents...",
     [str "c^2 = a^2 + b^2"])
  /\ maskInline (fst (maskDisplay debugContent)) =
       (str "The Pythagorean theorem is ... expressed as:"
          ++ [LF; LF] ++ displayToken 0 [] ++ [LF; LF]
          ++ str "where " ++ inlineToken 0 [] ++ str " represents...",
        [str "c"])
  /\ formatMessage exampleDeps debugContent =
       Returns
         (str "The Pythagorean theorem is ... expressed as:"
            ++ [LF; LF] ++ str "$$c^2 = a^2 + b^2$$" ++ [LF; LF]
            ++ str "where \(c\) represents...").
Proof. vm_compute. repeat split. Qed.

(* ===================================================================== *)
(** ** The further statements at concrete inputs *)
(* ===================================================================== *)

Lemma degraded_mode_keeps_reasoning_witness :
  marked degradedDeps = None
  /\ formatMessage degradedDeps (str "<think>hm</think>" ++ LF :: str "hi")
     = Returns (str "<think>hm</think><br>hi").
Proof.
  split; [reflexivity|].
  exact (proj1 (degraded_mode_keeps_reasoning degradedDeps
                  (str "<think>hm</think>" ++ LF :: str "hi") eq_refl)).
Defined.

Lemma placeholder_index_round_trip_witness :
  noPercent (str "<p>") = true
  /\ noPercent (str "</p>") = true
  /\ restoreDisplay (repeat (str "x") 10 ++ [str "y^2"])
       (str "<p>" ++ displayToken 10 (str "y^2") ++ str "</p>") =
       str "<p>" ++ (str "$$" ++ str "y^2" ++ str "$$") ++ str "</p>"
  /\ restoreInline [str "a"]
       (str "<p>" ++ inlineToken 1 (str "b") ++ str "</p>") =
       str "<p>" ++ (str "\(" ++ str "undefined" ++ str "\)") ++ str "</p>".
Proof.
  split; [reflexivity|]. split; [reflexivity|]. split.
  - exact (proj1 (placeholder_index_round_trip
                    (repeat (str "x") 10 ++ [str "y^2"]) 10 (str "y^2")
                    (str "<p>") (str "</p>") eq_refl eq_refl)).
  - exact (proj2 (placeholder_index_round_trip [str "a"] 1 (str "b")
                    (str "<p>") (str "</p>") eq_refl eq_refl)).
Defined.

Lemma message_without_math_witness :
  marked exampleDeps = Some Returns
  /\ plain (str " So <think>hm</think> 4. ") = true
  /\ noPercent (str "So  4.") = true
  /\ formatMessage exampleDeps (str " So <think>hm</think> 4. ") =
       Returns (str "So  4.").
Proof.
  split; [reflexivity|]. split; [reflexivity|]. split; [reflexivity|].
  exact (proj2 (proj2 (message_without_math exampleDeps Returns
                         (str " So <think>hm</think> 4. ") (str "So  4.")
                         eq_refl eq_refl eq_refl eq_refl))).
Defined.

Lemma sanitizer_stage_witness :
  marked brokenSanitizer = Some Returns
  /\ maskDisplay (stripThink (str "a $x$ b")) = (str "a $x$ b", [])
  /\ maskInline (str "a $x$ b") = (str "a %%%INLINE0%%% b", [str "x"])
  /\ formatMessage brokenSanitizer (str "a $x$ b") =
       Returns (str "a \(x\) b").
Proof.
  split; [reflexivity|]. split; [reflexivity|]. split; [reflexivity|].
  exact (sanitizer_stage brokenSanitizer Returns (str "a $x$ b")
           (str "a $x$ b") (str "a %%%INLINE0%%% b")
           (str "a %%%INLINE0%%% b") [] [str "x"]
           eq_refl eq_refl eq_refl eq_refl).
Defined.

Lemma blank_input_ignored_witness :
  forallb isSpace [32%N; LF; 9%N; 160%N] = true
  /\ sendMessage exampleDeps exampleLayout [32%N; LF; 9%N; 160%N]
       FetchFails examplePage = (examplePage, Some tt).
Proof.
  split; [reflexivity|].
  apply (blank_input_ignored exampleDeps exampleLayout
           [32%N; LF; 9%N; 160%N] FetchFails examplePage).
  reflexivity.
Defined.

Lemma saved_transcript_in_step_witness :
  electronAPI exampleDeps = true
  /\ trim (str "hi") <> []
  /\ lastSaved
       (log (fst (sendMessage exampleDeps exampleLayout (str "hi")
                    (Stream exampleReads ReadFails) examplePage))) =
       Some
         (conversationHistory
            (fst (sendMessage exampleDeps exampleLayout (str "hi")
                    (Stream exampleReads ReadFails) examplePage))).
Proof.
  split; [reflexivity|]. split; [discriminate|].
  apply (saved_transcript_in_step exampleDeps exampleLayout (str "hi")
           (Stream exampleReads ReadFails) examplePage).
  - reflexivity.
  - discriminate.
Defined.

Lemma identities_stay_fresh_witness :
  wfPage examplePage
  /\ wfPage
       (fst (sendMessage exampleDeps exampleLayout (str "hi")
               (Stream exampleReads (Done atBottom)) examplePage)).
Proof.
  split; [apply Forall_nil|].
  apply (identities_stay_fresh exampleDeps exampleLayout (str "hi")
           (Stream exampleReads (Done atBottom)) examplePage).
  apply Forall_nil.
Defined.

Lemma completed_turn_view_witness :
  wfPage examplePage
  /\ trim (str " hi ") = str "hi"
  /\ str "hi" <> []
  /\ view
       (fst (sendMessage exampleDeps exampleLayout (str " hi ")
               (Stream exampleReads (Done atBottom)) examplePage)) =
       [Message 0 TUser (TextContent (str "hi"));
        Message 2 TAi (InnerHTML (formatted exampleDeps (str "2+2 is 4")))].
Proof.
  split; [apply Forall_nil|]. split; [reflexivity|].
  split; [discriminate|].
  exact (proj1 (proj2
    (completed_turn_view exampleDeps exampleLayout (str " hi ") (str "hi")
       {| seen := atBottom; chunk := str "2+2 " |}
       [ {| seen := scrolledUp; chunk := str "is 4" |} ]
       atBottom examplePage (Forall_nil _) eq_refl ltac:(discriminate)))).
Defined.

Lemma saved_history_shown_witness :
  electronAPI exampleDeps = true
  /\ [userTurn (str "hi"); assistantTurn (str "$x$")] <> []
  /\ exists p',
       loadHistory exampleDeps exampleLayout
         (Saved [userTurn (str "hi"); assistantTurn (str "$x$")])
         examplePage = (p', Some tt)
       /\ conversationHistory p' =
            [userTurn (str "hi"); assistantTurn (str "$x$")]
       /\ view p' =
            [Message 0 TUser (TextContent (str "hi"));
             Message 1 TAi (InnerHTML (str "\(x\)"))].
Proof.
  split; [reflexivity|]. split; [discriminate|].
  destruct (saved_history_shown exampleDeps exampleLayout
              [userTurn (str "hi"); assistantTurn (str "$x$")] examplePage
              eq_refl ltac:(discriminate))
    as (p' & HR & HH & HV & _).
  exists p'. split; [exact HR|]. split; [exact HH|exact HV].
Defined.

Lemma greeting_not_recorded_witness :
  (electronAPI exampleDeps = false \/ LoadFails = LoadFails
   \/ LoadFails = NotAnArray \/ LoadFails = Saved [])
  /\ exists p',
       loadHistory exampleDeps exampleLayout LoadFails examplePage =
         (p', Some tt)
       /\ conversationHistory p' = []
       /\ view p' =
            [Message 0 TAi (InnerHTML (formatted exampleDeps greeting))].
Proof.
  split; [right; left; reflexivity|].
  destruct (greeting_not_recorded exampleDeps exampleLayout LoadFails
              examplePage (or_intror (or_introl eq_refl)))
    as (p' & HR & HH & HV & _).
  exists p'. split; [exact HR|]. split; [exact HH|exact HV].
Defined.



Lemma pending_pass_cuts_witness :
  In Tags.escOpen [Tags.rawOpen; Tags.escOpen]
  /\ hasSub canonicalize Tags.escOpen (str "So ") = false
  /\ map canonicalize (str "&lt;Think&gt;") = Tags.escOpen
  /\ removeOpenTail Tags.escOpen
       (str "So " ++ str "&lt;Think&gt;" ++ str "hm") = str "So ".
Proof.
  split; [right; left; reflexivity|]. split; [reflexivity|].
  split; [reflexivity|].
  exact (proj1 (pending_pass_cuts Tags.escOpen (str "So ")
                  (str "&lt;Think&gt;") (str "hm")
                  (or_intror (or_introl eq_refl)) eq_refl eq_refl)).
Defined.

Lemma dollar_stops_at_line_end_witness :
  noDollar (str "5 each") = true
  /\ matchInline (str "$" ++ str "5 each" ++ LF :: str "or $6") = None.
Proof.
  split; [reflexivity|].
  apply (dollar_stops_at_line_end (str "5 each") (str "or $6")).
  reflexivity.
Defined.
